(** * QueryLens: the natural-language-to-SQL demo of [app/main.py]

    A shallow embedding of [SimpleNLP2SQL.generate_query], [load_database],
    [get_schema] and [main], and the properties of them that the
    specification states.

    The program talks to three libraries it does not contain: the SQLite
    engine (through [sqlite3] and [pandas.read_sql_query]), the file system
    and the Streamlit widgets.  The file system is a finite map from paths
    to contents; the widgets are a list of emitted events; the engine is an
    interface ([Engine]) whose assumed behaviour is spelled out in
    [EngineLaws], and of which [Ref] gives one executable instance. *)

From Stdlib Require Import ZArith List Ascii String Bool Lia DecimalString.
From stdpp Require Import base option list strings gmap.

Local Open Scope Z_scope.

(** ** Python values, exceptions, dictionaries *)

(** The cells of a row that a [sqlite3] cursor hands to [get_schema]:
    [None], an [int] or a [str].  The rows of the catalog and of
    [PRAGMA table_info] hold nothing else. *)
Inductive value : Type :=
  | VNone
  | VInt (z : Z)
  | VStr (s : string).

#[global] Instance value_eq_dec : EqDecision value.
Proof. solve_decision. Defined.

(** Truth value of a Python object, as tested by [if col[5]]. *)
Definition truthy (v : value) : bool :=
  match v with
  | VNone => false
  | VInt z => negb (z =? 0)
  | VStr s => negb (String.eqb s "")
  end.

(** [str(v)], which is what an f-string placeholder inserts. *)
Definition py_str (v : value) : string :=
  match v with
  | VNone => "None"
  | VInt z => NilZero.string_of_int (Z.to_int z)
  | VStr s => s
  end.

(** A row is a Python tuple. *)
Definition row : Type := list value.

(** A raised exception: its class and its message ([str(e)]). *)
Record exn : Type := Exn { exn_class : string; exn_msg : string }.

Inductive outcome (A : Type) : Type :=
  | Ok (a : A)
  | Raise (e : exn).
Arguments Ok {A} a.
Arguments Raise {A} e.

(** [t[i]] on a tuple: an [IndexError] when out of range. *)
Definition index (t : row) (i : nat) : outcome value :=
  match nth_error t i with
  | Some v => Ok v
  | None => Raise (Exn "IndexError" "tuple index out of range")
  end.

(** A Python [dict]: keys in insertion order, assignment to a key already
    present replaces its value in place. *)
Definition dict (K V : Type) : Type := list (K * V).

Fixpoint dict_get {K V : Type} `{EqDecision K} (k : K) (d : dict K V) : option V :=
  match d with
  | [] => None
  | (k', v) :: d' => if decide (k = k') then Some v else dict_get k d'
  end.

Fixpoint dict_set {K V : Type} `{EqDecision K} (k : K) (v : V) (d : dict K V) : dict K V :=
  match d with
  | [] => [(k, v)]
  | (k', v') :: d' =>
      if decide (k = k') then (k, v) :: d' else (k', v') :: dict_set k v d'
  end.

Definition dict_keys {K V : Type} (d : dict K V) : list K := map fst d.

(** ** The schema data model *)

(** [{'type': col[2]}] *)
Record column_info : Type := ColumnInfo { type : value }.

(** [{'columns': {...}, 'primary_keys': [...]}] *)
Record table_info : Type := TableInfo {
  columns : dict value column_info;
  primary_keys : list value
}.

(** [schema]: table name to table information. *)
Definition Schema : Type := dict value table_info.

(** ** The query stub generator *)

Definition LF : ascii := ascii_of_nat 10.
Definition nl : string := String LF "".
Definition dq : string := String (ascii_of_nat 34) "".

Record SimpleNLP2SQL : Type := { system_message : string }.

(** [SimpleNLP2SQL.__init__] *)
Definition SimpleNLP2SQL_init : SimpleNLP2SQL :=
  {| system_message :=
       nl +:+
       "        Generate a SQL query based on the natural language input and database schema." +:+ nl +:+
       "        Only generate SELECT queries. Ensure the query is safe and valid." +:+ nl +:+
       "        Return the response in this format:" +:+ nl +:+
       "        {" +:+ nl +:+
       "            " +:+ dq +:+ "query" +:+ dq +:+ ": " +:+ dq +:+ "The SQL query" +:+ dq +:+ "," +:+ nl +:+
       "            " +:+ dq +:+ "explanation" +:+ dq +:+ ": " +:+ dq +:+ "Explanation of the query" +:+ dq +:+ nl +:+
       "        }" +:+ nl +:+
       "        " |}.

(** The result [{"query": ..., "explanation": ...}]. *)
Record query_result : Type := QueryResult {
  query : string;
  explanation : string
}.

Definition comment_prefix : string := "-- Generated from: ".
Definition stub_statement : string := "SELECT * FROM table_name LIMIT 5;".
Definition stub_explanation : string :=
  "This is a basic query that selects all columns from the specified table.".

(** [SimpleNLP2SQL.generate_query] *)
Definition generate_query (self : SimpleNLP2SQL) (user_input : string)
    (schema : Schema) : query_result :=
  {| query := comment_prefix +:+ user_input +:+ nl +:+ stub_statement;
     explanation := stub_explanation |}.

(** ** Where a character of SQL text lies

    SQLite's lexical rules for comments: a line comment runs from [--] up
    to and including the next line feed (or to the end of the text), a
    block comment from [/*] to the next [*/] (or to the end of the text);
    neither starts inside a quoted string or identifier. *)
Inductive lex_state : Type :=
  | Code
  | LineComment
  | BlockOpen
  | BlockComment
  | BlockClose
  | Quoted (closing : ascii).

Definition starts_with (c : ascii) (s : string) : bool :=
  match s with
  | String c' _ => Ascii.eqb c c'
  | EmptyString => false
  end.

Definition closing_quote (c : ascii) : option ascii :=
  if Ascii.eqb c "'" then Some c
  else if Ascii.eqb c (ascii_of_nat 34) then Some c
  else if Ascii.eqb c "`" then Some c
  else if Ascii.eqb c "[" then Some "]"%char
  else None.

(** One flag per character of the text: [true] when the character belongs
    to a comment. *)
Fixpoint comment_mask (st : lex_state) (s : string) : list bool :=
  match s with
  | EmptyString => []
  | String c s' =>
      match st with
      | Code =>
          if Ascii.eqb c "-" && starts_with "-" s' then true :: comment_mask LineComment s'
          else if Ascii.eqb c "/" && starts_with "*" s' then true :: comment_mask BlockOpen s'
          else match closing_quote c with
               | Some q => false :: comment_mask (Quoted q) s'
               | None => false :: comment_mask Code s'
               end
      | LineComment =>
          true :: comment_mask (if Ascii.eqb c LF then Code else LineComment) s'
      | BlockOpen => true :: comment_mask BlockComment s'
      | BlockComment =>
          if Ascii.eqb c "*" && starts_with "/" s' then true :: comment_mask BlockClose s'
          else true :: comment_mask BlockComment s'
      | BlockClose => true :: comment_mask Code s'
      | Quoted q =>
          false :: comment_mask (if Ascii.eqb c q then Code else Quoted q) s'
      end
  end.

(** The [len] characters of [q] from position [start] on all belong to a
    comment. *)
Definition inside_comment (q : string) (start len : nat) : bool :=
  forallb id (firstn len (skipn start (comment_mask Code q))).

(** The text [t] occurs in [q] at position [start]. *)
Definition occurs_at (t q : string) (start : nat) : bool :=
  String.eqb (String.substring start (String.length t) q) t.

(** Some occurrence of [t] in [q] lies entirely inside a comment. *)
Definition occurs_inside_comment (t q : string) : bool :=
  existsb (fun i => occurs_at t q i && inside_comment q i (String.length t))
          (seq 0 (S (String.length q))).

Fixpoint string_forallb (p : ascii -> bool) (s : string) : bool :=
  match s with
  | EmptyString => true
  | String c s' => p c && string_forallb p s'
  end.

(** The text has no line feed. *)
Definition no_line_feed (s : string) : bool :=
  string_forallb (fun c => negb (Ascii.eqb c LF)) s.

(** A single line of text, as a text-input widget delivers it: no line
    feed and no NUL character. *)
Definition single_line (s : string) : bool :=
  string_forallb (fun c => negb (Ascii.eqb c LF) && negb (Ascii.eqb c zero)) s.

(** ** The SQLite engine, as the program uses it *)

(** The content of a file. *)
Definition bytes : Type := list Byte.byte.

#[global] Instance byte_eq_dec : EqDecision Byte.byte := Byte.byte_eq_dec.

(** A stored cell, in one of SQLite's five storage classes; a REAL is given
    by the 64 bits of its value, a TEXT by its bytes. *)
Inductive cell : Type :=
  | CNull
  | CInt (z : Z)
  | CReal (bits : Z)
  | CText (b : bytes)
  | CBlob (b : bytes).

(** Well-formed UTF-8, as the strict decoder of Python requires it: no
    stray or missing continuation byte, no overlong form, no surrogate, no
    code point above U+10FFFF.  [pending] continuation bytes are awaited,
    the next of them between [lo] and [hi]. *)
Fixpoint utf8_scan (pending : nat) (lo hi : N) (bs : bytes) : bool :=
  match bs with
  | [] => Nat.eqb pending 0
  | b :: rest =>
      let n := Byte.to_N b in
      match pending with
      | O =>
          if (n <? 128)%N then utf8_scan 0 128 191 rest
          else if (194 <=? n)%N && (n <=? 223)%N then utf8_scan 1 128 191 rest
          else if (n =? 224)%N then utf8_scan 2 160 191 rest
          else if (n =? 237)%N then utf8_scan 2 128 159 rest
          else if (225 <=? n)%N && (n <=? 239)%N then utf8_scan 2 128 191 rest
          else if (n =? 240)%N then utf8_scan 3 144 191 rest
          else if (241 <=? n)%N && (n <=? 243)%N then utf8_scan 3 128 191 rest
          else if (n =? 244)%N then utf8_scan 3 128 143 rest
          else false
      | S p =>
          if (lo <=? n)%N && (n <=? hi)%N then utf8_scan p 128 191 rest else false
      end
  end.

Definition valid_utf8 (bs : bytes) : bool := utf8_scan 0 128 191 bs.

(** [sqlite3] turns every cell into a Python object; with the default
    [text_factory] this fails for a TEXT that is not UTF-8, and for nothing
    else. *)
Definition cell_fetchable (c : cell) : bool :=
  match c with
  | CText b => valid_utf8 b
  | _ => true
  end.

Definition rows_fetchable (rows : list (list cell)) : bool :=
  forallb (forallb cell_fetchable) rows.

(** A name or another text of the catalog can be handed over as a [str]:
    its bytes are UTF-8. *)
Definition text_ok (s : string) : bool := valid_utf8 (String.list_byte_of_string s).

(** What a well-formed database file holds, as the engine presents it: the
    entities of its catalog ([sqlite_master]), each with its kind
    (['table'], ['view'], ['index'], ['trigger']) and its name, and, with
    the kind ['builtin'], the relations that the engine resolves without a
    row of the catalog (the catalog table itself under its names, the
    table-valued forms of pragmas).  For a relation, [e_columns] are the
    columns that [PRAGMA table_info] lists for it, which need not be the
    declared ones (hidden and generated columns are not listed), each with
    the type text, the flags and the key position that the pragma reports
    (the type text need not be the declared one: standard type names are
    reported in capitals); [e_labels] are the names of the columns that
    [SELECT *] yields and [e_rows] the rows that a scan of it yields, in
    the order of the scan.  [e_listable] is [false] for a relation on
    which the engine fails to run [PRAGMA table_info], and [e_selectable]
    for one on which it fails to run [SELECT *]: a virtual table whose
    module is not loaded, a view over a table that is gone.  Names, type
    texts and default values are sequences of bytes, which need not be
    UTF-8. *)
Record listed_column : Type := ListedColumn {
  c_name : string;
  c_type : string;
  c_notnull : bool;
  c_dflt : option string;
  c_pk : nat          (* position in the primary key, 0 when not part of it *)
}.

Record entity : Type := Entity {
  e_kind : string;
  e_name : string;
  e_columns : list listed_column;
  e_labels : list string;
  e_rows : list (list cell);
  e_listable : bool;
  e_selectable : bool
}.

Definition database : Type := list entity.

Definition is_table (e : entity) : bool := String.eqb (e_kind e) "table".

(** Names of tables and views are compared without regard to ASCII case. *)
Definition lower (c : ascii) : ascii :=
  let n := nat_of_ascii c in
  if (65 <=? n)%nat && (n <=? 90)%nat then ascii_of_nat (n + 32) else c.

Fixpoint sql_name_eqb (a b : string) : bool :=
  match a, b with
  | EmptyString, EmptyString => true
  | String x a', String y b' => Ascii.eqb (lower x) (lower y) && sql_name_eqb a' b'
  | _, _ => false
  end.

(** Tables, views and built-in relations share one name space. *)
Definition is_relation (e : entity) : bool :=
  is_table e || String.eqb (e_kind e) "view" || String.eqb (e_kind e) "builtin".

(** The table or view that a name denotes. *)
Definition find_relation (n : string) (db : database) : option entity :=
  find (fun e => is_relation e && sql_name_eqb n (e_name e)) db.

(** No two tables or views of the catalog have the same name. *)
Definition names_distinct (db : database) : Prop :=
  forall (i j : nat) (e1 e2 : entity),
    nth_error db i = Some e1 -> nth_error db j = Some e2 ->
    is_relation e1 = true -> is_relation e2 = true ->
    sql_name_eqb (e_name e1) (e_name e2) = true -> i = j.

(** Result of [SELECT name FROM sqlite_master WHERE type='table';]. *)
Definition catalog_tables (db : database) : list row :=
  map (fun e => [VStr (e_name e)]) (List.filter is_table db).

(** One row of [PRAGMA table_info]: cid, name, type, notnull, dflt_value, pk. *)
Definition table_info_row (cid : nat) (c : listed_column) : row :=
  [ VInt (Z.of_nat cid); VStr (c_name c); VStr (c_type c);
    VInt (if c_notnull c then 1 else 0);
    match c_dflt c with Some d => VStr d | None => VNone end;
    VInt (Z.of_nat (c_pk c)) ].

(** The columns [PRAGMA table_info] reports for a name: those of the table
    or view it denotes, none when it denotes nothing. *)
Definition reported_columns (db : database) (n : string) : list listed_column :=
  match find_relation n db with
  | Some e => e_columns e
  | None => []
  end.

Definition table_info_rows (db : database) (n : string) : list row :=
  imap table_info_row (reported_columns db n).

(** The rows of the catalog [SELECT] can be fetched: the names of the
    tables are text. *)
Definition catalog_readable (db : database) : bool :=
  forallb (fun e => text_ok (e_name e)) (List.filter is_table db).

(** The row of [PRAGMA table_info] for a column can be fetched. *)
Definition column_readable (c : listed_column) : bool :=
  text_ok (c_name c) && text_ok (c_type c)
  && match c_dflt c with Some d => text_ok d | None => true end.

(** [PRAGMA table_info] on a relation runs and its rows can be fetched. *)
Definition listable (e : entity) : bool :=
  e_listable e && forallb column_readable (e_columns e).

(** [PRAGMA table_info] on a name fails when the name denotes a relation
    that is not listable; on a name that denotes nothing it reports no
    row. *)
Definition describable (db : database) (n : string) : bool :=
  match find_relation n db with
  | Some e => listable e
  | None => true
  end.

(** [SELECT * ... LIMIT 5] on a relation runs, its column names can be
    read and its first five rows fetched. *)
Definition fetchable (e : entity) : bool :=
  e_selectable e && forallb text_ok (e_labels e)
  && rows_fetchable (firstn 5 (e_rows e)).

Definition catalog_query : string :=
  "SELECT name FROM sqlite_master WHERE type='table';".

Definition pragma_query (table_name : string) : string :=
  "PRAGMA table_info(" +:+ table_name +:+ ");".

(** The text holds a NUL character. *)
Definition has_nul (s : string) : bool :=
  negb (string_forallb (fun c => negb (Ascii.eqb c zero)) s).

(** [pandas.DataFrame] of a result set: its column labels, and the stored
    rows it was built from, in order (how pandas converts the cells is not
    modelled). *)
Record DataFrame : Type := { df_columns : list string; df_rows : list (list cell) }.

(** Two runs of [pandas.read_sql_query] that leave the same file and
    either return the same frame or both raise. *)
Definition same_frame (r1 r2 : outcome DataFrame * bytes) : Prop :=
  snd r1 = snd r2 /\
  match fst r1, fst r2 with
  | Ok a, Ok b => a = b
  | Raise _, Raise _ => True
  | _, _ => False
  end.

(** The engine: [decode] is the database a file holds ([None] when the
    bytes are not a well-formed database); [read_name] is how the parser
    reads the text put between the parentheses of [PRAGMA table_info(...)]
    ([None] when the statement does not parse, otherwise the name it
    denotes); [sql_exec] is [cursor.execute] followed by [fetchall] of
    [sqlite3]: it runs one statement text on a file and gives the fetched
    rows, or the exception raised, and the file afterwards; [read_frame]
    is [pandas.read_sql_query] on a connection to the file: it gives the
    frame, or the exception that pandas raises, and the file afterwards.
    The engine is given the bytes of the database file and nothing else:
    it stands for SQLite on a file without journal or write-ahead log
    beside it, and the files SQLite may create there are not modelled. *)
Class Engine : Type := {
  decode : bytes -> option database;
  read_name : string -> option string;
  sql_exec : string -> bytes -> outcome (list row) * bytes;
  read_frame : string -> bytes -> outcome DataFrame * bytes
}.

(** The statements [get_schema] issues. *)
Definition read_statement (stmt : string) : Prop :=
  stmt = catalog_query \/ exists arg, stmt = pragma_query arg.

(** What is assumed of SQLite, [sqlite3] and pandas on the statements the
    program issues: on a file that is no database the statements of
    [get_schema] fail; on a database the catalog [SELECT] gives the names
    of the tables, unless one of them cannot be fetched;
    [PRAGMA table_info] gives the columns of the relation that its
    argument denotes, and fails when that relation cannot be listed or
    the argument is no name; [pandas.read_sql_query] fails on a text with
    a NUL character, is not affected by a leading line comment in front of
    a [SELECT], and on the stub statement returns the first five rows of
    the relation [table_name], or fails when there is none or when they
    cannot be fetched.  A statement that fails, and these statements when
    they succeed, leave the file as it is. *)
Class EngineLaws (E : Engine) : Prop := {
  exec_not_a_database f stmt :
    decode f = None -> read_statement stmt ->
    exists e, sql_exec stmt f = (Raise e, f);
  exec_catalog f db :
    decode f = Some db -> catalog_readable db = true ->
    sql_exec catalog_query f = (Ok (catalog_tables db), f);
  exec_catalog_unreadable f db :
    decode f = Some db -> catalog_readable db = false ->
    exists e, sql_exec catalog_query f = (Raise e, f);
  exec_pragma f db arg n :
    decode f = Some db -> read_name arg = Some n -> describable db n = true ->
    sql_exec (pragma_query arg) f = (Ok (table_info_rows db n), f);
  exec_pragma_unlistable f db arg n :
    decode f = Some db -> read_name arg = Some n -> describable db n = false ->
    exists e, sql_exec (pragma_query arg) f = (Raise e, f);
  exec_pragma_syntax f db arg :
    decode f = Some db -> read_name arg = None ->
    exists e, sql_exec (pragma_query arg) f = (Raise e, f);
  frame_nul f sql :
    has_nul sql = true -> exists e, read_frame sql f = (Raise e, f);
  frame_line_comment f db c rest :
    decode f = Some db -> single_line c = true -> String.prefix "SELECT " rest = true ->
    same_frame (read_frame ("--" +:+ c +:+ nl +:+ rest) f) (read_frame rest f);
  frame_stub f db e :
    decode f = Some db -> find_relation "table_name" db = Some e ->
    fetchable e = true ->
    read_frame stub_statement f
    = (Ok {| df_columns := e_labels e; df_rows := firstn 5 (e_rows e) |}, f);
  frame_stub_unfetchable f db e :
    decode f = Some db -> find_relation "table_name" db = Some e ->
    fetchable e = false ->
    exists x, read_frame stub_statement f = (Raise x, f);
  frame_stub_no_table f db :
    decode f = Some db -> find_relation "table_name" db = None ->
    exists x, read_frame stub_statement f = (Raise x, f)
}.

(** The engine leaves the file as it is on those statements. *)
Definition reads_only (E : Engine) : Prop :=
  forall stmt f, read_statement stmt -> snd (sql_exec stmt f) = f.

(** ** The world of the script: files and the rendered page *)

(** Streamlit calls, in the order the script makes them. *)
Inductive ui_event : Type :=
  | StTitle (s : string)
  | StMarkdown (s : string)
  | StFileUploader (label : string) (types : list string)
  | StSubheader (s : string)
  | StExpander (label : string) (json : table_info)
  | StTextInput (label placeholder : string)
  | StSpinner (s : string)
  | StCode (body language : string)
  | StWrite (s : string)
  | StButton (label : string)
  | StDataframe (df : DataFrame)
  | StError (s : string)
  | StInfo (s : string).

Record World : Type := {
  files : gmap string bytes;
  screen : list ui_event
}.

(** What the user did on the page: the uploaded file if any, the text
    typed, whether the button was pressed. *)
Record Inputs : Type := {
  uploaded : option bytes;
  typed : string;
  pressed : bool
}.

(** Computations of the script: they change the world and return a value
    or raise. *)
Definition M (A : Type) : Type := World -> outcome A * World.

#[global] Instance M_ret : MRet M := fun A a w => (Ok a, w).

#[global] Instance M_bind : MBind M := fun A B f m w =>
  match m w with
  | (Ok a, w') => f a w'
  | (Raise e, w') => (Raise e, w')
  end.

#[global] Instance outcome_ret : MRet outcome := fun A a => Ok a.

#[global] Instance outcome_bind : MBind outcome := fun A B f m =>
  match m with
  | Ok a => f a
  | Raise e => Raise e
  end.

Definition lift {A : Type} (o : outcome A) : M A := fun w => (o, w).

(** [try: body / except Exception as e: handler(e)] *)
Definition try_except {A : Type} (body : M A) (handler : exn -> M A) : M A :=
  fun w =>
    match body w with
    | (Ok a, w') => (Ok a, w')
    | (Raise e, w') => handler e w'
    end.

(** [for x in xs: acc = body(x, acc)] *)
Fixpoint for_each {A S : Type} (xs : list A) (body : A -> S -> M S) (acc : S) : M S :=
  match xs with
  | [] => mret acc
  | x :: xs' => acc' ← body x acc; for_each xs' body acc'
  end.

Definition st (e : ui_event) : M unit :=
  fun w => (Ok tt, {| files := files w; screen := screen w ++ [e] |}).

(** [open(path, "wb")] followed by [f.write(data)]. *)
Definition write_file (path : string) (data : bytes) : M unit :=
  fun w => (Ok tt, {| files := <[path := data]> (files w); screen := screen w |}).

(** [sqlite3.Connection]: the file it was opened on.  Opening does not read
    the file. *)
Record Connection : Type := { db_path : string }.

Definition sqlite3_connect (path : string) : Connection := {| db_path := path |}.

(** The file a connection works on; SQLite takes a missing file for an
    empty one and creates it. *)
Definition db_file (conn : Connection) (w : World) : bytes :=
  default [] (files w !! db_path conn).

(** [cursor.execute(sql)] followed by [cursor.fetchall()]. *)
Definition execute `{Engine} (conn : Connection) (sql : string) : M (list row) :=
  fun w =>
    let '(r, f') := sql_exec sql (db_file conn w) in
    (r, {| files := <[db_path conn := f']> (files w); screen := screen w |}).

(** [pd.read_sql_query(sql, conn)], on the file of the connection. *)
Definition read_sql_query `{Engine} (sql : string) (conn : Connection) : M DataFrame :=
  fun w =>
    let '(r, f') := read_frame sql (db_file conn w) in
    (r, {| files := <[db_path conn := f']> (files w); screen := screen w |}).

(** ** The program *)

Definition temp_path : string := "temp_db.sqlite".

(** [load_database] *)
Definition load_database (uploaded_file : option bytes) : M (option Connection) :=
  match uploaded_file with
  | None => mret None
  | Some buffer =>
      write_file temp_path buffer;;
      mret (Some (sqlite3_connect temp_path))
  end.

(** [{col[1]: {'type': col[2]} for col in columns}] *)
Fixpoint columns_dict (cols : list row) (acc : dict value column_info)
    : outcome (dict value column_info) :=
  match cols with
  | [] => Ok acc
  | col :: cols' =>
      k ← index col 1;
      t ← index col 2;
      columns_dict cols' (dict_set k {| type := t |} acc)
  end.

(** [[col[1] for col in columns if col[5]]] *)
Fixpoint primary_keys_list (cols : list row) : outcome (list value) :=
  match cols with
  | [] => Ok []
  | col :: cols' =>
      pk ← index col 5;
      if truthy pk then
        k ← index col 1;
        ks ← primary_keys_list cols';
        Ok (k :: ks)
      else primary_keys_list cols'
  end.

(** The body of the loop of [get_schema]. *)
Definition schema_entry `{Engine} (conn : Connection) (table : row) (schema : Schema)
    : M Schema :=
  table_name ← lift (index table 0);
  cols ← execute conn (pragma_query (py_str table_name));
  cs ← lift (columns_dict cols []);
  pks ← lift (primary_keys_list cols);
  mret (dict_set table_name {| columns := cs; primary_keys := pks |} schema).

(** [get_schema] *)
Definition get_schema `{Engine} (conn : Connection) : M Schema :=
  tables ← execute conn catalog_query;
  for_each tables (schema_entry conn) [].

(** The [try]/[except] around the execution of the query in [main]. *)
Definition execute_query `{Engine} (result : query_result) (conn : Connection) : M unit :=
  try_except
    (df ← read_sql_query (query result) conn;
     st (StSubheader "Query Results");;
     st (StDataframe df))
    (fun e => st (StError ("Error executing query: " +:+ exn_msg e))).

Definition load_error : string :=
  "Error loading database. Please make sure it's a valid SQLite database.".

(** [main], run once on what the user did. *)
Definition main `{Engine} (ui : Inputs) : M unit :=
  st (StTitle "💬 Natural Language to SQL Converter");;
  st (StMarkdown "Upload your SQLite database and type your query in natural language.");;
  st (StFileUploader "Upload SQLite Database" ["db"; "sqlite"; "sqlite3"]);;
  let uploaded_file := uploaded ui in
  match uploaded_file with
  | Some _ =>
      conn ← load_database uploaded_file;
      match conn with
      | Some conn =>
          schema ← get_schema conn;
          st (StSubheader "Available Tables");;
          for_each schema
            (fun '(table_name, table_info) (_ : unit) =>
               st (StExpander ("Table: " +:+ py_str table_name) table_info)) tt;;
          st (StTextInput "Enter your query in natural language"
                          "e.g., Show me all users who joined last month");;
          let user_input := typed ui in
          if negb (String.eqb user_input "") then
            st (StSpinner "Generating SQL query...");;
            let nlp2sql := SimpleNLP2SQL_init in
            let result := generate_query nlp2sql user_input schema in
            st (StSubheader "Generated SQL Query");;
            st (StCode (query result) "sql");;
            st (StSubheader "Explanation");;
            st (StWrite (explanation result));;
            st (StButton "Execute Query");;
            if pressed ui then execute_query result conn else mret tt
          else mret tt
      | None => st (StError load_error)
      end
  | None => st (StInfo "👆 Please upload a SQLite database file to begin.")
  end.

(** ** A reference engine

    An executable instance of [Engine] on a handful of sample files.  It
    removes the comments of a statement text and then understands the
    statements the program issues; it reads as a name an unquoted
    identifier that is not a reserved word, a number, and a name quoted
    with brackets, double quotes, single quotes or backticks; it rejects
    every other text.  Its exceptions carry the class that [sqlite3] or
    pandas raises; the message is the one of pandas for a missing table,
    and a short description otherwise.  The sample databases list the
    entities of their catalogs only. *)
Module Ref.

Definition is_blank (c : ascii) : bool :=
  Ascii.eqb c " " || Ascii.eqb c LF || Ascii.eqb c (ascii_of_nat 9) || Ascii.eqb c (ascii_of_nat 13).

(** The characters of [s] whose flag is [false]. *)
Fixpoint keep_code (mask : list bool) (s : string) : string :=
  match mask, s with
  | true :: mask', String _ s' => keep_code mask' s'
  | false :: mask', String c s' => String c (keep_code mask' s')
  | _, _ => EmptyString
  end.

Fixpoint drop_leading_blanks (s : string) : string :=
  match s with
  | EmptyString => EmptyString
  | String c s' => if is_blank c then drop_leading_blanks s' else s
  end.

(** A statement text without its comments and leading blanks. *)
Definition clean (stmt : string) : string :=
  drop_leading_blanks (keep_code (comment_mask Code stmt) stmt).

Fixpoint strip_prefix (p s : string) : option string :=
  match p, s with
  | EmptyString, _ => Some s
  | String a p', String b s' => if Ascii.eqb a b then strip_prefix p' s' else None
  | String _ _, EmptyString => None
  end.

(** [s] is the text [target] followed by blanks only. *)
Definition is_statement (target s : string) : bool :=
  match strip_prefix target s with
  | Some rest => string_forallb is_blank rest
  | None => false
  end.

(** The text in front of the closing [);] of a statement. *)
Fixpoint strip_closing (s : string) : option string :=
  if is_statement ");" s then Some EmptyString
  else match s with
       | EmptyString => None
       | String c s' => String c <$> strip_closing s'
       end.

(** The text between the parentheses of a [PRAGMA table_info(...);]. *)
Definition parse_pragma (s : string) : option string :=
  rest ← strip_prefix "PRAGMA table_info(" s; strip_closing rest.

Definition is_digit (c : ascii) : bool :=
  let n := nat_of_ascii c in (48 <=? n)%nat && (n <=? 57)%nat.

Definition ident_char (c : ascii) : bool :=
  let n := nat_of_ascii c in
  is_digit c || ((65 <=? n)%nat && (n <=? 90)%nat)
  || ((97 <=? n)%nat && (n <=? 122)%nat) || (n =? 95)%nat.

Definition bare_identifier (s : string) : bool :=
  match s with
  | EmptyString => false
  | String c _ => negb (is_digit c) && string_forallb ident_char s
  end.

(** The words that cannot stand unquoted for a name. *)
Definition reserved_words : list string :=
  [ "ADD"; "ALL"; "ALTER"; "AND"; "AS"; "AUTOINCREMENT"; "BETWEEN"; "CASE";
    "CHECK"; "COLLATE"; "COMMIT"; "CONSTRAINT"; "CREATE"; "DEFERRABLE";
    "DISTINCT"; "DROP"; "ELSE"; "ESCAPE"; "EXCEPT"; "EXISTS"; "FILTER";
    "FOREIGN"; "FROM"; "GROUP"; "HAVING"; "IN"; "INDEX"; "INSERT";
    "INTERSECT"; "INTO"; "IS"; "ISNULL"; "JOIN"; "LIMIT"; "NOT"; "NOTHING";
    "NOTNULL"; "NULL"; "OR"; "ORDER"; "OVER"; "PRIMARY"; "REFERENCES";
    "RETURNING"; "SELECT"; "SET"; "TABLE"; "THEN"; "TO"; "TRANSACTION";
    "UNION"; "UNIQUE"; "UPDATE"; "USING"; "VALUES"; "WHEN"; "WHERE";
    "WINDOW" ].

Definition is_reserved (s : string) : bool := existsb (sql_name_eqb s) reserved_words.

(** A text without its last character, and that character. *)
Fixpoint split_last (s : string) : option (string * ascii) :=
  match s with
  | EmptyString => None
  | String c s' =>
      match split_last s' with
      | None => Some (EmptyString, c)
      | Some (init, last) => Some (String c init, last)
      end
  end.

(** The text between an opening and a closing quote. *)
Definition unquote (opening closing : ascii) (a : string) : option string :=
  match a with
  | String c rest =>
      if Ascii.eqb c opening then
        match split_last rest with
        | Some (inner, last) =>
            if Ascii.eqb last closing
               && string_forallb (fun x => negb (Ascii.eqb x closing)) inner
            then Some inner else None
        | None => None
        end
      else None
  | EmptyString => None
  end.

Definition is_number (a : string) : bool :=
  negb (String.eqb a "") && string_forallb is_digit a.

Definition name_of (a : string) : option string :=
  if bare_identifier a then (if is_reserved a then None else Some a)
  else if is_number a then Some a
  else match unquote "[" "]" a with
       | Some n => Some n
       | None =>
           match unquote (ascii_of_nat 34) (ascii_of_nat 34) a with
           | Some n => Some n
           | None =>
               match unquote "'" "'" a with
               | Some n => Some n
               | None => unquote "`" "`" a
               end
           end
       end.

Definition ref_read_name (arg : string) : option string :=
  a ← parse_pragma (clean (pragma_query arg)); name_of a.

(** What a cursor gives for a statement. *)
Definition run (db : database) (stmt : string) : outcome (list row) :=
  let s := clean stmt in
  if is_statement catalog_query s then
    if catalog_readable db then Ok (catalog_tables db)
    else Raise (Exn "OperationalError" "a name of the catalog is not UTF-8")
  else match parse_pragma s with
       | Some a =>
           match name_of a with
           | Some n =>
               if describable db n then Ok (table_info_rows db n)
               else Raise (Exn "OperationalError" "the columns cannot be listed")
           | None => Raise (Exn "OperationalError" "syntax error")
           end
       | None => Raise (Exn "OperationalError" "statement not understood")
       end.

(** The exception pandas raises when the execution of [sql] fails with [msg]. *)
Definition pandas_error (sql msg : string) : exn :=
  Exn "DatabaseError" ("Execution failed on sql '" +:+ sql +:+ "': " +:+ msg).

Definition name_cell (e : entity) : list cell :=
  [CText (String.list_byte_of_string (e_name e))].

(** What [pandas.read_sql_query] gives for a statement: the stub statement
    and the catalog statement are understood. *)
Definition run_frame (db : database) (sql : string) : outcome DataFrame :=
  let s := clean sql in
  if is_statement stub_statement s then
    match find_relation "table_name" db with
    | Some e =>
        if fetchable e
        then Ok {| df_columns := e_labels e; df_rows := firstn 5 (e_rows e) |}
        else Raise (pandas_error sql "the rows of table_name cannot be fetched")
    | None => Raise (pandas_error sql "no such table: table_name")
    end
  else if is_statement catalog_query s then
    Ok {| df_columns := ["name"]; df_rows := map name_cell (List.filter is_table db) |}
  else Raise (pandas_error sql "statement not understood").

(** The sample files. *)
Definition magic : bytes := String.list_byte_of_string "SQLite format 3" ++ [Byte.x00].

Definition file_of (label : string) : bytes := magic ++ String.list_byte_of_string label.

Definition int_column (n : string) (pk : nat) : listed_column :=
  {| c_name := n; c_type := "INTEGER"; c_notnull := false; c_dflt := None; c_pk := pk |}.

Definition text_column (n : string) : listed_column :=
  {| c_name := n; c_type := "TEXT"; c_notnull := false; c_dflt := None; c_pk := 0 |}.

Definition table (n : string) (cs : list listed_column) (rows : list (list cell)) : entity :=
  {| e_kind := "table"; e_name := n; e_columns := cs; e_labels := map c_name cs;
     e_rows := rows; e_listable := true; e_selectable := true |}.

Definition view (n : string) (cs : list listed_column) (rows : list (list cell)) : entity :=
  {| e_kind := "view"; e_name := n; e_columns := cs; e_labels := map c_name cs;
     e_rows := rows; e_listable := true; e_selectable := true |}.

Definition text (s : string) : cell := CText (String.list_byte_of_string s).

Definition item_rows : list (list cell) :=
  map (fun i => [CInt i; text "item"]) [1; 2; 3; 4; 5; 6; 7].

(** A table the stub query finds, with seven rows, next to a view and an index. *)
Definition stock_db : database :=
  [ table "table_name" [int_column "id" 1; text_column "label"] item_rows;
    {| e_kind := "index"; e_name := "label_idx"; e_columns := []; e_labels := [];
       e_rows := []; e_listable := true; e_selectable := true |};
    view "labels" [text_column "label"] [] ].

(** Two tables, one with a single-column primary key and one without a key. *)
Definition users_db : database :=
  [ table "users" [int_column "id" 1; text_column "name"] [[CInt 1; text "ada"]];
    table "logs" [text_column "line"] [] ].

(** The schema expected of [users_db]. *)
Definition users_entry : table_info :=
  {| columns := [(VStr "id", {| type := VStr "INTEGER" |});
                 (VStr "name", {| type := VStr "TEXT" |})];
     primary_keys := [VStr "id"] |}.

Definition users_schema : Schema :=
  [ (VStr "users", users_entry);
    (VStr "logs", {| columns := [(VStr "line", {| type := VStr "TEXT" |})];
                     primary_keys := [] |}) ].

(** A table whose name is not an identifier. *)
Definition notes_db : database :=
  [ table "my table" [int_column "id" 1] [] ].

(** A view and nothing else. *)
Definition ones_db : database :=
  [ view "ones" [int_column "one" 0] [[CInt 1]] ].

(** A table [users] with a key, and a keyless table whose name is [users]
    between brackets. *)
Definition brackets_db : database :=
  [ table "users" [int_column "id" 1; text_column "name"] [];
    table "[users]" [text_column "other"] [] ].

(** No table named [table_name], but a view of that name over a table. *)
Definition view_db : database :=
  [ table "items" [int_column "id" 1; text_column "label"] item_rows;
    view "table_name" [text_column "label"] [[text "item"]; [text "item"]] ].

(** No table named [table_name], but one named in capitals. *)
Definition capitals_db : database :=
  [ table "TABLE_NAME" [int_column "id" 1] [[CInt 1]] ].

(** A table [table_name] whose one row holds a TEXT in Latin-1, which is
    not UTF-8. *)
Definition latin_db : database :=
  [ table "table_name" [text_column "label"]
      [[CText [Byte.x63; Byte.x61; Byte.x66; Byte.xe9]]] ].

(** A virtual table whose module is not loaded, next to a plain table. *)
Definition search_db : database :=
  [ table "notes" [int_column "id" 1] [];
    {| e_kind := "table"; e_name := "docs"; e_columns := []; e_labels := [];
       e_rows := []; e_listable := false; e_selectable := false |} ].

(** A table [table_name] that is a virtual table whose module is not
    loaded. *)
Definition module_db : database :=
  [ {| e_kind := "table"; e_name := "table_name"; e_columns := [text_column "body"];
       e_labels := ["body"]; e_rows := [[text "one"]];
       e_listable := false; e_selectable := false |} ].

(** A table [table_name] with one good row and a column whose name is the
    Latin-1 byte of an accented letter, which is not UTF-8. *)
Definition label_db : database :=
  [ table "table_name"
      [ {| c_name := String (ascii_of_nat 233) ""; c_type := "INTEGER";
           c_notnull := false; c_dflt := None; c_pk := 0 |} ]
      [[CInt 1]] ].

(** A table whose name is the Latin-1 byte of an accented letter, which is
    not UTF-8. *)
Definition accent_db : database :=
  [ table (String (ascii_of_nat 233) "") [int_column "id" 1] [] ].

Definition stock_file : bytes := file_of "stock".
Definition search_file : bytes := file_of "search".
Definition module_file : bytes := file_of "module".
Definition accent_file : bytes := file_of "accent".
Definition label_file : bytes := file_of "label".
Definition ones_file : bytes := file_of "ones".
Definition brackets_file : bytes := file_of "brackets".
Definition view_file : bytes := file_of "view".
Definition capitals_file : bytes := file_of "capitals".
Definition latin_file : bytes := file_of "latin".
Definition users_file : bytes := file_of "users".
Definition notes_file : bytes := file_of "notes".

(** Bytes that are no database at all. *)
Definition garbage_file : bytes := String.list_byte_of_string "not a database".

Definition samples : list (bytes * database) :=
  [ ([], []); (stock_file, stock_db); (users_file, users_db); (notes_file, notes_db);
    (ones_file, ones_db); (brackets_file, brackets_db); (view_file, view_db);
    (capitals_file, capitals_db); (latin_file, latin_db); (search_file, search_db);
    (module_file, module_db); (accent_file, accent_db); (label_file, label_db) ].

Fixpoint lookup_sample (f : bytes) (l : list (bytes * database)) : option database :=
  match l with
  | [] => None
  | (g, db) :: l' => if decide (g = f) then Some db else lookup_sample f l'
  end.

Definition ref_decode (f : bytes) : option database := lookup_sample f samples.

Definition ref_exec (stmt : string) (f : bytes) : outcome (list row) * bytes :=
  match ref_decode f with
  | Some db => (run db stmt, f)
  | None => (Raise (Exn "DatabaseError" "file is not a database"), f)
  end.

Definition ref_frame (sql : string) (f : bytes) : outcome DataFrame * bytes :=
  if has_nul sql then (Raise (pandas_error sql "the query contains a null character"), f)
  else match ref_decode f with
       | Some db => (run_frame db sql, f)
       | None => (Raise (pandas_error sql "file is not a database"), f)
       end.

Definition engine : Engine :=
  {| decode := ref_decode; read_name := ref_read_name; sql_exec := ref_exec;
     read_frame := ref_frame |}.

(** The world before anything was uploaded. *)
Definition start : World := {| files := ∅; screen := [] |}.

(** The connection [load_database] returns, and a world in which the
    temporary file holds [f]. *)
Definition conn : Connection := sqlite3_connect temp_path.

Definition holding (f : bytes) : World := {| files := {[ temp_path := f ]}; screen := [] |}.

End Ref.

(** ** What the schema of a database is expected to be *)

(** The [columns] mapping of the columns that the pragma lists. *)
Definition columns_of (cs : list listed_column) : dict value column_info :=
  fold_left (fun acc c => dict_set (VStr (c_name c)) {| type := VStr (c_type c) |} acc) cs [].

(** The names of the columns whose key-order field is not zero. *)
Definition key_columns (cs : list listed_column) : list value :=
  map (fun c => VStr (c_name c)) (filter (fun c => c_pk c ≠ 0%nat) cs).

(** The schema entry built from what [PRAGMA table_info] reports on [n]. *)
Definition entry_of (db : database) (n : string) : table_info :=
  {| columns := columns_of (reported_columns db n);
     primary_keys := key_columns (reported_columns db n) |}.

(** The schema built from the tables of the catalog, in catalog order;
    [None] when the name of one of them is not text, is not read back as a
    name, or is read as the name of a relation whose columns cannot be
    listed. *)
Fixpoint schema_from `{Engine} (db : database) (tables : list entity) (acc : Schema)
    : option Schema :=
  match tables with
  | [] => Some acc
  | e :: tables' =>
      if text_ok (e_name e) then
        match read_name (e_name e) with
        | Some n =>
            if describable db n
            then schema_from db tables' (dict_set (VStr (e_name e)) (entry_of db n) acc)
            else None
        | None => None
        end
      else None
  end.

(** The world once a connection has opened its file. *)
Definition touch (conn : Connection) (w : World) : World :=
  {| files := <[db_path conn := db_file conn w]> (files w); screen := screen w |}.

(** Two worlds that differ at most in whether the file of [conn] exists:
    same database content, same other files, same page. *)
Definition same_db (conn : Connection) (w w' : World) : Prop :=
  db_file conn w' = db_file conn w
  ∧ (∀ p, p ≠ db_path conn → files w' !! p = files w !! p)
  ∧ screen w' = screen w.

(** A computation that looks at nothing of the world but the file of
    [conn]: its result and the file afterwards are determined by that file. *)
Definition depends_on_db {A : Type} (conn : Connection) (m : M A) : Prop :=
  ∀ w1 w2, db_file conn w1 = db_file conn w2 →
    fst (m w1) = fst (m w2) ∧ db_file conn (snd (m w1)) = db_file conn (snd (m w2)).

(** The schema shown after uploading [buffer]. *)
Definition schema_after_upload `{Engine} (buffer : bytes) : M Schema :=
  conn ← load_database (Some buffer);
  match conn with
  | Some conn => get_schema conn
  | None => mret []
  end.

(** ** The page [main] renders, and frames of computations *)

(** The part of [main] that follows the call of [get_schema]. *)
Definition main_after_schema `{Engine} (ui : Inputs) (conn : Connection) (schema : Schema)
    : M unit :=
  st (StSubheader "Available Tables");;
  for_each schema
    (fun '(table_name, table_info) (_ : unit) =>
       st (StExpander ("Table: " +:+ py_str table_name) table_info)) tt;;
  st (StTextInput "Enter your query in natural language"
                  "e.g., Show me all users who joined last month");;
  let user_input := typed ui in
  if negb (String.eqb user_input "") then
    st (StSpinner "Generating SQL query...");;
    let nlp2sql := SimpleNLP2SQL_init in
    let result := generate_query nlp2sql user_input schema in
    st (StSubheader "Generated SQL Query");;
    st (StCode (query result) "sql");;
    st (StSubheader "Explanation");;
    st (StWrite (explanation result));;
    st (StButton "Execute Query");;
    if pressed ui then execute_query result conn else mret tt
  else mret tt.

(** The three widgets every run starts with. *)
Definition opening : list ui_event :=
  [ StTitle "💬 Natural Language to SQL Converter";
    StMarkdown "Upload your SQLite database and type your query in natural language.";
    StFileUploader "Upload SQLite Database" ["db"; "sqlite"; "sqlite3"] ].

(** One expander per entry of the schema, in the order of the schema. *)
Definition expanders (schema : Schema) : list ui_event :=
  map (fun '(table_name, table_info) =>
         StExpander ("Table: " +:+ py_str table_name) table_info) schema.

Definition text_widget : ui_event :=
  StTextInput "Enter your query in natural language"
              "e.g., Show me all users who joined last month".

(** What is shown for a generated query, button included. *)
Definition query_widgets (result : query_result) : list ui_event :=
  [ StSpinner "Generating SQL query...";
    StSubheader "Generated SQL Query";
    StCode (query result) "sql";
    StSubheader "Explanation";
    StWrite (explanation result);
    StButton "Execute Query" ].

(** What is shown for the outcome of an execution. *)
Definition result_events (r : outcome DataFrame) : list ui_event :=
  match r with
  | Ok df => [StSubheader "Query Results"; StDataframe df]
  | Raise e => [StError ("Error executing query: " +:+ exn_msg e)]
  end.

(** The world in which [main] calls [get_schema] after an upload. *)
Definition uploaded_world (buffer : bytes) (w : World) : World :=
  {| files := <[temp_path := buffer]> (files w); screen := screen w ++ opening |}.

(** Every run of [m] takes a world to one that [R] relates to it. *)
Definition preserves {A : Type} (R : World -> World -> Prop) (m : M A) : Prop :=
  forall w, R w (snd (m w)).

(** The page is the same. *)
Definition same_page (w w' : World) : Prop := screen w' = screen w.



(** The text between the comment opener and the stub statement of a
    generated query. *)
Definition echoed_text (q : string) : string :=
  String.substring (String.length comment_prefix)
    (String.length q - String.length comment_prefix
     - String.length nl - String.length stub_statement) q.

(** * Properties *)

(** ** Dictionaries *)

Section DictFacts.
Context {K V : Type} `{EqDecision K}.
Implicit Types (k : K) (v : V) (d : dict K V).

Lemma dict_get_set_eq k v d : dict_get k (dict_set k v d) = Some v.
Proof.
  induction d as [|[k' v'] d IH]; simpl.
  - by rewrite decide_True.
  - destruct (decide (k = k')) as [->|Hne]; simpl.
    + by rewrite decide_True.
    + by rewrite decide_False.
Qed.

Lemma dict_get_set_ne k k' v d :
  k ≠ k' → dict_get k' (dict_set k v d) = dict_get k' d.
Proof.
  intros Hne. induction d as [|[k0 v0] d IH]; simpl.
  - rewrite decide_False; [done | congruence].
  - destruct (decide (k = k0)) as [->|Hne0]; simpl.
    + rewrite !decide_False; [done | congruence | congruence].
    + destruct (decide (k' = k0)); [done | apply IH].
Qed.

Lemma dict_keys_set k v d :
  dict_keys (dict_set k v d) =
    if decide (k ∈ dict_keys d) then dict_keys d else dict_keys d ++ [k].
Proof.
  unfold dict_keys. induction d as [|[k0 v0] d IH]; [done|].
  cbn [dict_set]. destruct (decide (k = k0)) as [->|Hne]; cbn [map fst].
  - rewrite decide_True; [done | by left].
  - rewrite IH. destruct (decide (k ∈ map fst d)) as [Hin|Hnin].
    + rewrite decide_True; [done | by right].
    + rewrite decide_False; [done |].
      intros [?|?]%elem_of_cons; [congruence | done].
Qed.

Lemma dict_get_is_Some k d : is_Some (dict_get k d) ↔ k ∈ dict_keys d.
Proof.
  unfold dict_keys. induction d as [|[k0 v0] d IH]; cbn [dict_get map fst].
  - split; [by intros [? ?] | by intros ?%elem_of_nil].
  - destruct (decide (k = k0)) as [->|Hne].
    + split; [by left | by eexists].
    + rewrite IH. split; [by right |].
      intros [?|?]%elem_of_cons; [congruence | done].
Qed.

Lemma dict_keys_set_NoDup k v d : NoDup (dict_keys d) → NoDup (dict_keys (dict_set k v d)).
Proof.
  intros Hnd. rewrite dict_keys_set. case_decide as Hin; [done |].
  apply NoDup_app. split_and!; [done | | apply NoDup_singleton].
  intros x Hx ->%list_elem_of_singleton. done.
Qed.

End DictFacts.

(** ** The query stub generator *)

Lemma string_length_app (a b : string) :
  String.length (a +:+ b) = (String.length a + String.length b)%nat.
Proof. induction a as [|c a IH]; [done | simpl; by f_equal]. Qed.

Lemma string_app_assoc (a b c : string) : (a +:+ b) +:+ c = a +:+ b +:+ c.
Proof.
  induction a as [|x a IH]; [done |].
  change (String x ((a +:+ b) +:+ c) = String x (a +:+ b +:+ c)). by rewrite IH.
Qed.

Lemma substring_skip (p s : string) (n : nat) :
  String.substring (String.length p) n (p +:+ s) = String.substring 0 n s.
Proof. induction p as [|c p IH]; [done | apply IH]. Qed.

Lemma substring_prefix (u r : string) :
  String.substring 0 (String.length u) (u +:+ r) = u.
Proof.
  induction u as [|c u IH]; simpl.
  - by destruct r.
  - by rewrite IH.
Qed.

Lemma line_comment_mask (u r : string) :
  no_line_feed u = true →
  comment_mask LineComment (u +:+ r)
  = repeat true (String.length u) ++ comment_mask LineComment r.
Proof.
  induction u as [|c u IH]; [done |].
  cbn [no_line_feed string_forallb]. intros [Hc Hu]%andb_prop.
  apply negb_true_iff in Hc.
  change (comment_mask LineComment (String c u +:+ r))
    with (true :: comment_mask (if Ascii.eqb c LF then Code else LineComment) (u +:+ r)).
  rewrite Hc. cbn [String.length repeat app]. f_equal. by apply IH.
Qed.

Lemma forallb_repeat_true (n : nat) (l : list bool) :
  forallb id (firstn n (repeat true n ++ l)) = true.
Proof. induction n as [|n IH]; [done | apply IH]. Qed.

(** C1: [generate_query] is a function of the user text alone: whatever the
    two schema mappings (and whatever the generator objects), the same text
    gives the same [{query, explanation}] pair. *)
Theorem generate_query_ignores_schema :
  ∀ (self1 self2 : SimpleNLP2SQL) (user_input : string) (schema1 schema2 : Schema),
    generate_query self1 user_input schema1 = generate_query self2 user_input schema2.
Proof. intros. reflexivity. Qed.

(** C2, as stated, fails: for the two-line text [a<LF>b] the query holds the
    text at the position where it was echoed, but the line comment ends at
    the line feed, so the text is not inside it; and no other occurrence
    of the text in the query lies inside a comment. *)
Lemma generate_query_comment_escape :
  let user_input := "a" +:+ nl +:+ "b" in
  let q := query (generate_query SimpleNLP2SQL_init user_input []) in
  occurs_at user_input q (String.length comment_prefix) = true
  ∧ inside_comment q (String.length comment_prefix) (String.length user_input) = false
  ∧ occurs_inside_comment user_input q = false.
Proof. vm_compute. auto. Qed.

(** C2, amended: for every text the query holds the text verbatim, right
    after the comment opener, and the explanation is one constant; when the
    text has no line feed, it lies entirely inside that line comment. *)
Theorem generate_query_echoes_input :
  ∀ (self : SimpleNLP2SQL) (user_input : string) (schema : Schema),
    let r := generate_query self user_input schema in
    (query r = comment_prefix +:+ user_input +:+ nl +:+ stub_statement
     ∧ occurs_at user_input (query r) (String.length comment_prefix) = true
     ∧ explanation r = stub_explanation)
    ∧ (no_line_feed user_input = true →
       inside_comment (query r) (String.length comment_prefix)
         (String.length user_input) = true).
Proof.
  intros self u schema. cbn zeta. split.
  - split; [done |]. split; [| done].
    unfold occurs_at. cbn [query generate_query].
    rewrite substring_skip, substring_prefix. apply String.eqb_refl.
  - intros Hu. unfold inside_comment. cbn [query generate_query].
    change (skipn (String.length comment_prefix)
              (comment_mask Code (comment_prefix +:+ u +:+ nl +:+ stub_statement)))
      with (comment_mask LineComment (u +:+ nl +:+ stub_statement)).
    rewrite line_comment_mask by done. apply forallb_repeat_true.
Qed.

Lemma generate_query_echoes_input_witness :
  no_line_feed "show all users" = true
  ∧ inside_comment (query (generate_query SimpleNLP2SQL_init "show all users" []))
      (String.length comment_prefix) (String.length "show all users") = true.
Proof.
  split; [reflexivity |].
  apply (proj2 (generate_query_echoes_input SimpleNLP2SQL_init "show all users" [])).
  reflexivity.
Defined.

(** ** Running statements through a connection *)

Lemma db_file_touch conn w : db_file conn (touch conn w) = db_file conn w.
Proof. unfold db_file, touch. cbn [files]. by rewrite lookup_insert_eq. Qed.

Lemma touch_touch conn w : touch conn (touch conn w) = touch conn w.
Proof.
  unfold touch at 1. rewrite db_file_touch. unfold touch. cbn [files screen].
  by rewrite insert_insert_eq.
Qed.

Lemma same_db_refl conn w : same_db conn w w.
Proof. done. Qed.

Lemma same_db_trans conn w1 w2 w3 :
  same_db conn w1 w2 → same_db conn w2 w3 → same_db conn w1 w3.
Proof.
  intros (Hf & Ho & Hs) (Hf' & Ho' & Hs'). split_and!.
  - congruence.
  - intros p Hp. rewrite Ho', Ho; done.
  - congruence.
Qed.

Lemma same_db_touch conn w : same_db conn w (touch conn w).
Proof.
  split_and!; [apply db_file_touch | | done].
  intros p Hp. unfold touch. cbn [files]. by rewrite lookup_insert_ne.
Qed.

Lemma execute_kept `{Engine} conn sql w r :
  sql_exec sql (db_file conn w) = (r, db_file conn w) →
  execute conn sql w = (r, touch conn w).
Proof. unfold execute. by intros ->. Qed.

Lemma execute_read_statement `{E : Engine} conn sql w :
  reads_only E → read_statement sql →
  snd (execute conn sql w) = touch conn w.
Proof.
  intros Hro Hsql. unfold execute.
  specialize (Hro sql (db_file conn w) Hsql).
  destruct (sql_exec sql (db_file conn w)) as [r f']. cbn [snd] in *. by subst.
Qed.

Lemma laws_reads_only `{E : Engine} : EngineLaws E → reads_only E.
Proof.
  intros L stmt f Hst. destruct (decode f) as [db|] eqn:Hd.
  - destruct Hst as [->|[arg ->]].
    + destruct (catalog_readable db) eqn:Hc.
      * by rewrite (exec_catalog f db).
      * destruct (exec_catalog_unreadable f db Hd Hc) as [e ->]. done.
    + destruct (read_name arg) as [n|] eqn:Hn.
      * destruct (describable db n) eqn:Hu.
        -- by rewrite (exec_pragma f db arg n).
        -- destruct (exec_pragma_unlistable f db arg n Hd Hn Hu) as [e ->]. done.
      * destruct (exec_pragma_syntax f db arg Hd Hn) as [e ->]. done.
  - destruct (exec_not_a_database f stmt Hd Hst) as [e ->]. done.
Qed.

(** ** The two comprehensions of [get_schema] on [PRAGMA table_info] rows *)

Lemma columns_dict_table_info (f : nat → listed_column → row) cs acc :
  (∀ i c, ∃ cid, f i c = table_info_row cid c) →
  columns_dict (imap f cs) acc
  = Ok (fold_left (λ acc c, dict_set (VStr (c_name c)) {| type := VStr (c_type c) |} acc)
          cs acc).
Proof.
  revert f acc. induction cs as [|c cs IH]; intros f acc Hf; [done |].
  cbn [imap columns_dict fold_left]. destruct (Hf 0%nat c) as [cid ->].
  cbn. apply IH. intros i c'. apply Hf.
Qed.

Lemma truthy_pk (n : nat) : truthy (VInt (Z.of_nat n)) = bool_decide (n ≠ 0%nat).
Proof.
  cbn [truthy]. destruct n as [|n]; [done |].
  rewrite bool_decide_true by done. apply negb_true_iff, Z.eqb_neq. lia.
Qed.

Lemma primary_keys_list_table_info (f : nat → listed_column → row) cs :
  (∀ i c, ∃ cid, f i c = table_info_row cid c) →
  primary_keys_list (imap f cs) = Ok (key_columns cs).
Proof.
  revert f. induction cs as [|c cs IH]; intros f Hf; [done |].
  cbn [imap primary_keys_list]. destruct (Hf 0%nat c) as [cid ->].
  unfold key_columns. rewrite filter_cons.
  change (index (table_info_row cid c) 5) with (Ok (VInt (Z.of_nat (c_pk c)))).
  change (index (table_info_row cid c) 1) with (Ok (VStr (c_name c))).
  cbn [mbind outcome_bind]. rewrite truthy_pk.
  rewrite (IH (f ∘ S)) by (intros i c'; apply Hf).
  case_bool_decide; case_decide; done.
Qed.

Lemma comprehensions_table_info db n :
  columns_dict (table_info_rows db n) [] = Ok (columns (entry_of db n))
  ∧ primary_keys_list (table_info_rows db n) = Ok (primary_keys (entry_of db n)).
Proof.
  unfold table_info_rows. split.
  - apply columns_dict_table_info. intros i c. by exists i.
  - apply primary_keys_list_table_info. intros i c. by exists i.
Qed.

(** ** [get_schema] against the expected schema *)

Section GetSchema.
Context `{E : Engine} (L : EngineLaws E).
Variables (conn : Connection) (db : database).

Lemma schema_entry_read w name n acc :
  decode (db_file conn w) = Some db → read_name name = Some n →
  describable db n = true →
  schema_entry conn [VStr name] acc w
  = (Ok (dict_set (VStr name) (entry_of db n) acc), touch conn w).
Proof.
  intros Hd Hn Hu. unfold schema_entry, mbind, M_bind, lift. cbn [index nth_error py_str].
  rewrite (execute_kept conn _ w (Ok (table_info_rows db n)))
    by (by apply exec_pragma).
  destruct (comprehensions_table_info db n) as [-> ->]. done.
Qed.

Lemma schema_entry_unlistable w name n acc :
  decode (db_file conn w) = Some db → read_name name = Some n →
  describable db n = false →
  ∃ e, schema_entry conn [VStr name] acc w = (Raise e, touch conn w).
Proof.
  intros Hd Hn Hu. destruct (exec_pragma_unlistable _ db name n Hd Hn Hu) as [e He].
  exists e. unfold schema_entry, mbind, M_bind, lift. cbn [index nth_error py_str].
  by rewrite (execute_kept conn _ w (Raise e)).
Qed.

Lemma schema_entry_unread w name acc :
  decode (db_file conn w) = Some db → read_name name = None →
  ∃ e, schema_entry conn [VStr name] acc w = (Raise e, touch conn w).
Proof.
  intros Hd Hn. destruct (exec_pragma_syntax _ db name Hd Hn) as [e He].
  exists e. unfold schema_entry, mbind, M_bind, lift. cbn [index nth_error py_str].
  by rewrite (execute_kept conn _ w (Raise e)).
Qed.

Lemma for_each_schema_entry w tables acc :
  decode (db_file conn w) = Some db → touch conn w = w →
  forallb (λ e, text_ok (e_name e)) tables = true →
  match schema_from db tables acc with
  | Some s =>
      for_each (map (λ e, [VStr (e_name e)]) tables) (schema_entry conn) acc w = (Ok s, w)
  | None =>
      ∃ e, for_each (map (λ e, [VStr (e_name e)]) tables) (schema_entry conn) acc w
           = (Raise e, w)
  end.
Proof.
  intros Hd Hw. revert acc. induction tables as [|t tables IH]; intros acc Htext; [done |].
  cbn [forallb] in Htext. apply andb_prop in Htext as [Ht Htext].
  cbn [schema_from map for_each]. rewrite Ht.
  destruct (read_name (e_name t)) as [n|] eqn:Hn.
  - destruct (describable db n) eqn:Hu.
    + specialize (IH (dict_set (VStr (e_name t)) (entry_of db n) acc) Htext).
      unfold mbind, M_bind. rewrite (schema_entry_read w _ n) by done.
      rewrite Hw. apply IH.
    + destruct (schema_entry_unlistable w (e_name t) n acc Hd Hn Hu) as [e He].
      exists e. unfold mbind, M_bind. rewrite He. by rewrite Hw.
  - destruct (schema_entry_unread w (e_name t) acc Hd Hn) as [e He].
    exists e. unfold mbind, M_bind. rewrite He. by rewrite Hw.
Qed.

Lemma schema_from_not_text tables acc :
  forallb (λ e, text_ok (e_name e)) tables = false → schema_from db tables acc = None.
Proof.
  revert acc. induction tables as [|t tables IH]; intros acc Htext; [done |].
  cbn [forallb] in Htext. cbn [schema_from].
  destruct (text_ok (e_name t)); [| done].
  destruct (read_name (e_name t)) as [n|]; [| done].
  destruct (describable db n); [by apply IH | done].
Qed.

Lemma get_schema_expected w :
  decode (db_file conn w) = Some db →
  match schema_from db (List.filter is_table db) [] with
  | Some s => get_schema conn w = (Ok s, touch conn w)
  | None => ∃ e, get_schema conn w = (Raise e, touch conn w)
  end.
Proof.
  intros Hd. unfold get_schema, mbind, M_bind.
  destruct (catalog_readable db) eqn:Hc.
  - rewrite (execute_kept conn _ w (Ok (catalog_tables db))) by (by apply exec_catalog).
    apply for_each_schema_entry; [by rewrite db_file_touch | apply touch_touch | done].
  - rewrite schema_from_not_text by done.
    destruct (exec_catalog_unreadable _ db Hd Hc) as [e He]. exists e.
    by rewrite (execute_kept conn _ w (Raise e)).
Qed.

End GetSchema.

(** ** The reference engine satisfies the laws *)

Module RefLaws.
Import Ref.

Lemma keep_code_comment (c r : string) (m : list bool) :
  keep_code (repeat true (String.length c) ++ m) (c +:+ r) = keep_code m r.
Proof. induction c as [|a c IH]; [done | apply IH]. Qed.

Lemma single_line_no_line_feed (s : string) : single_line s = true → no_line_feed s = true.
Proof.
  induction s as [|a s IH]; [done |].
  cbn [single_line no_line_feed string_forallb].
  intros [[Ha _]%andb_prop Hs]%andb_prop. rewrite Ha. by apply IH.
Qed.

Lemma clean_line_comment (c rest : string) :
  no_line_feed c = true → clean ("--" +:+ c +:+ nl +:+ rest) = clean rest.
Proof.
  intros Hc. unfold clean. f_equal.
  change (comment_mask Code ("--" +:+ c +:+ nl +:+ rest))
    with (true :: true :: comment_mask LineComment (c +:+ nl +:+ rest)).
  rewrite line_comment_mask by done.
  change (comment_mask LineComment (nl +:+ rest)) with (true :: comment_mask Code rest).
  change (keep_code (repeat true (String.length c) ++ true :: comment_mask Code rest)
            (c +:+ nl +:+ rest) = keep_code (comment_mask Code rest) rest).
  rewrite keep_code_comment. done.
Qed.

Lemma clean_letter_P (s : string) :
  clean (String "P" s) = String "P" (keep_code (comment_mask Code s) s).
Proof. reflexivity. Qed.

Lemma clean_pragma_query (arg : string) : ∃ t, clean (pragma_query arg) = String "P" t.
Proof.
  change (pragma_query arg) with (String "P" ("RAGMA table_info(" +:+ arg +:+ ");")).
  rewrite clean_letter_P. eexists. reflexivity.
Qed.

Lemma run_catalog db :
  run db catalog_query
  = if catalog_readable db then Ok (catalog_tables db)
    else Raise (Exn "OperationalError" "a name of the catalog is not UTF-8").
Proof. reflexivity. Qed.

Lemma run_pragma db arg :
  run db (pragma_query arg)
  = match ref_read_name arg with
    | Some n =>
        if describable db n then Ok (table_info_rows db n)
        else Raise (Exn "OperationalError" "the columns cannot be listed")
    | None => run db (pragma_query arg)
    end
  ∧ (ref_read_name arg = None → ∃ e, run db (pragma_query arg) = Raise e).
Proof.
  unfold run, ref_read_name. destruct (clean_pragma_query arg) as [t ->].
  change (is_statement catalog_query (String "P" t)) with false.
  cbn match. destruct (parse_pragma (String "P" t)) as [a|]; cbn [mbind option_bind].
  - destruct (name_of a); split; [done | done | done | by eexists].
  - split; [done | by eexists].
Qed.

Lemma string_forallb_app (p : ascii → bool) (a b : string) :
  string_forallb p (a +:+ b) = string_forallb p a && string_forallb p b.
Proof.
  induction a as [|c a IH]; [done |].
  change (String c a +:+ b) with (String c (a +:+ b)).
  cbn [string_forallb]. rewrite IH. by rewrite andb_assoc.
Qed.

Lemma single_line_no_nul (s : string) : single_line s = true → has_nul s = false.
Proof.
  unfold has_nul. intros Hs. apply negb_false_iff.
  induction s as [|a s IH]; [done |].
  cbn [single_line string_forallb] in *.
  apply andb_prop in Hs as [[_ Ha]%andb_prop Hs]. rewrite Ha. by apply IH.
Qed.

Lemma has_nul_line_comment (c rest : string) :
  single_line c = true → has_nul ("--" +:+ c +:+ nl +:+ rest) = has_nul rest.
Proof.
  intros Hc%single_line_no_nul. unfold has_nul in *. f_equal.
  change ("--" +:+ c +:+ nl +:+ rest) with (String "-" (String "-" (c +:+ String LF rest))).
  cbn [string_forallb]. rewrite string_forallb_app. cbn [string_forallb].
  apply negb_false_iff in Hc. rewrite Hc. reflexivity.
Qed.

Lemma run_frame_stub db :
  run_frame db stub_statement
  = match find_relation "table_name" db with
    | Some e =>
        if fetchable e
        then Ok {| df_columns := e_labels e; df_rows := firstn 5 (e_rows e) |}
        else Raise (pandas_error stub_statement "the rows of table_name cannot be fetched")
    | None => Raise (pandas_error stub_statement "no such table: table_name")
    end.
Proof. reflexivity. Qed.

Lemma run_frame_clean db sql1 sql2 :
  clean sql1 = clean sql2 →
  match run_frame db sql1, run_frame db sql2 with
  | Ok a, Ok b => a = b
  | Raise _, Raise _ => True
  | _, _ => False
  end.
Proof.
  intros Hc. unfold run_frame. rewrite Hc.
  destruct (is_statement stub_statement (clean sql2)).
  - destruct (find_relation "table_name" db) as [e|]; [| done].
    by destruct (fetchable e).
  - by destruct (is_statement catalog_query (clean sql2)).
Qed.

Lemma engine_laws : EngineLaws engine.
Proof.
  split; cbn [decode read_name sql_exec read_frame engine]; unfold ref_exec, ref_frame.
  - intros f stmt -> _. by eexists.
  - intros f db -> Hc. by rewrite run_catalog, Hc.
  - intros f db -> Hc. rewrite run_catalog, Hc. by eexists.
  - intros f db arg n -> Hn Hu. destruct (run_pragma db arg) as [-> _]. by rewrite Hn, Hu.
  - intros f db arg n -> Hn Hu. destruct (run_pragma db arg) as [-> _].
    rewrite Hn, Hu. by eexists.
  - intros f db arg -> Hn. destruct (run_pragma db arg) as [_ [e ->]]; [done | by eexists].
  - intros f sql ->. by eexists.
  - intros f db c rest -> Hc. rewrite has_nul_line_comment by done.
    destruct (has_nul rest); [done |]. split; [done |]. cbn [fst].
    apply run_frame_clean, clean_line_comment. by apply single_line_no_line_feed.
  - intros f db e -> He Hf. change (has_nul stub_statement) with false.
    cbn match. by rewrite run_frame_stub, He, Hf.
  - intros f db e -> He Hf. change (has_nul stub_statement) with false.
    cbn match. rewrite run_frame_stub, He, Hf. by eexists.
  - intros f db -> He. change (has_nul stub_statement) with false.
    cbn match. rewrite run_frame_stub, He. by eexists.
Qed.

End RefLaws.

(** ** The schema extractor *)

Lemma schema_from_unread `{Engine} db tables acc t :
  t ∈ tables → read_name (e_name t) = None → schema_from db tables acc = None.
Proof.
  intros Hin Hn. revert acc. induction tables as [|t' tables IH]; intros acc.
  - by apply elem_of_nil in Hin.
  - cbn [schema_from]. destruct (text_ok (e_name t')); [| done].
    apply elem_of_cons in Hin as [<-|Hin].
    + by rewrite Hn.
    + destruct (read_name (e_name t')) as [n|]; [| done].
      destruct (describable db n); [by apply IH | done].
Qed.

Lemma schema_from_unlistable `{Engine} db tables acc t n :
  t ∈ tables → read_name (e_name t) = Some n → describable db n = false →
  schema_from db tables acc = None.
Proof.
  intros Hin Hn Hu. revert acc. induction tables as [|t' tables IH]; intros acc.
  - by apply elem_of_nil in Hin.
  - cbn [schema_from]. destruct (text_ok (e_name t')); [| done].
    apply elem_of_cons in Hin as [<-|Hin].
    + by rewrite Hn, Hu.
    + destruct (read_name (e_name t')) as [n'|]; [| done].
      destruct (describable db n'); [by apply IH | done].
Qed.

Lemma schema_from_name_not_text `{Engine} db tables acc t :
  t ∈ tables → text_ok (e_name t) = false → schema_from db tables acc = None.
Proof.
  intros Hin Ht. revert acc. induction tables as [|t' tables IH]; intros acc.
  - by apply elem_of_nil in Hin.
  - cbn [schema_from]. apply elem_of_cons in Hin as [<-|Hin].
    + by rewrite Ht.
    + destruct (text_ok (e_name t')); [| done].
      destruct (read_name (e_name t')) as [n'|]; [| done].
      destruct (describable db n'); [by apply IH | done].
Qed.

Lemma schema_from_lookup `{Engine} db tables acc s k info :
  schema_from db tables acc = Some s → dict_get k s = Some info →
  dict_get k acc = Some info
  ∨ ∃ t n, t ∈ tables ∧ k = VStr (e_name t) ∧ read_name (e_name t) = Some n
           ∧ info = entry_of db n.
Proof.
  revert acc. induction tables as [|t tables IH]; intros acc Hs Hk.
  - cbn in Hs. left. congruence.
  - cbn [schema_from] in Hs. destruct (text_ok (e_name t)); [| done].
    destruct (read_name (e_name t)) as [n|] eqn:Hn; [|done].
    destruct (describable db n) eqn:Hu; [| done].
    destruct (IH _ Hs Hk) as [Hacc|(t' & n' & Hin & -> & Hn' & ->)].
    + destruct (decide (VStr (e_name t) = k)) as [<-|Hne].
      * rewrite dict_get_set_eq in Hacc. right. exists t, n.
        split_and!; [by left | done | done | congruence].
      * rewrite dict_get_set_ne in Hacc by done. by left.
    + right. exists t', n'. split_and!; [by right | done..].
Qed.

Lemma schema_from_keys `{Engine} db tables acc s :
  schema_from db tables acc = Some s →
  ∀ k, k ∈ dict_keys s ↔ k ∈ dict_keys acc ∨ ∃ t, t ∈ tables ∧ k = VStr (e_name t).
Proof.
  revert acc. induction tables as [|t tables IH]; intros acc Hs k.
  - cbn in Hs. injection Hs as <-. split; [by left |].
    intros [?|(t & Hin & _)]; [done | by apply elem_of_nil in Hin].
  - cbn [schema_from] in Hs. destruct (text_ok (e_name t)); [| done].
    destruct (read_name (e_name t)) as [n|] eqn:Hn; [|done].
    destruct (describable db n) eqn:Hu; [| done].
    rewrite (IH _ Hs k), dict_keys_set. split.
    + intros [Hk|(t' & Hin & ->)].
      * case_decide as Hd; [by left |].
        apply elem_of_app in Hk as [?|Hk%list_elem_of_singleton]; [by left |].
        right. exists t. split; [by left | done].
      * right. exists t'. split; [by right | done].
    + intros [Hk|(t' & Hin & ->)].
      * left. case_decide; [done | apply elem_of_app; by left].
      * apply elem_of_cons in Hin as [->|Hin]; [| right; by exists t'].
        left. case_decide; [done |].
        apply elem_of_app; right. by apply list_elem_of_singleton.
Qed.

Lemma key_columns_elem cs col :
  VStr col ∈ key_columns cs ↔ ∃ c, c ∈ cs ∧ c_name c = col ∧ c_pk c ≠ 0%nat.
Proof.
  unfold key_columns. rewrite list_elem_of_In, in_map_iff. split.
  - intros (c & [= <-] & Hc). apply list_elem_of_In, list_elem_of_filter in Hc as [Hpk Hc].
    by exists c.
  - intros (c & Hc & <- & Hpk). exists c. split; [done |].
    apply list_elem_of_In, list_elem_of_filter. done.
Qed.

Lemma key_columns_none cs : (∀ c, c ∈ cs → c_pk c = 0%nat) → key_columns cs = [].
Proof.
  intros Hz. unfold key_columns. induction cs as [|c cs IH]; [done |].
  rewrite filter_cons. rewrite decide_False.
  - apply IH. intros c' Hc'. apply Hz. by right.
  - intros Hpk. apply Hpk, Hz. by left.
Qed.

Lemma filter_tables_nil (db : database) :
  Forall (λ e, is_table e = false) db → List.filter is_table db = [].
Proof.
  induction 1 as [|e db He _ IH]; [done |].
  cbn [List.filter]. by rewrite He.
Qed.

Lemma get_schema_Ok `{E : Engine} (L : EngineLaws E) conn db w schema w' :
  decode (db_file conn w) = Some db → get_schema conn w = (Ok schema, w') →
  schema_from db (List.filter is_table db) [] = Some schema ∧ w' = touch conn w.
Proof.
  intros Hd Hg. pose proof (get_schema_expected L conn db w Hd) as Hexp.
  destruct (schema_from db _ []) as [s|].
  - rewrite Hexp in Hg. by injection Hg as <- <-.
  - destruct Hexp as [e He]. congruence.
Qed.

(** C3: on a well-formed database that has a table whose name the parser
    does not read back as a name once it is pasted unquoted into
    [PRAGMA table_info(...)] (a name with a space, say), [get_schema] raises
    and returns no mapping at all, where the claim promises one entry per
    table. *)
Theorem get_schema_unquoted_name_raises `{E : Engine} (L : EngineLaws E) conn w db t :
  decode (db_file conn w) = Some db →
  t ∈ db → is_table t = true → read_name (e_name t) = None →
  ∃ e, get_schema conn w = (Raise e, touch conn w).
Proof.
  intros Hd Hin Ht Hn. pose proof (get_schema_expected L conn db w Hd) as Hexp.
  rewrite (schema_from_unread db _ [] t) in Hexp; [done | | done].
  apply list_elem_of_In, filter_In. split; [by apply list_elem_of_In | done].
Qed.

Lemma get_schema_unquoted_name_raises_witness :
  ∃ e, @get_schema Ref.engine Ref.conn (Ref.holding Ref.notes_file)
       = (Raise e, touch Ref.conn (Ref.holding Ref.notes_file)).
Proof.
  apply (get_schema_unquoted_name_raises RefLaws.engine_laws Ref.conn
           (Ref.holding Ref.notes_file) Ref.notes_db
           (Ref.table "my table" [Ref.int_column "id" 1] [])).
  - vm_compute. reflexivity.
  - by left.
  - reflexivity.
  - vm_compute. reflexivity.
Defined.

(** The same run, evaluated: the statement [PRAGMA table_info(my table);]
    is a syntax error. *)
Example get_schema_my_table :
  ∃ msg, fst (@get_schema Ref.engine Ref.conn (Ref.holding Ref.notes_file))
         = Raise (Exn "OperationalError" msg).
Proof. eexists. vm_compute. reflexivity. Qed.

(** C10: on a well-formed database without any entity of kind ['table'],
    [get_schema] returns the empty mapping. *)
Theorem get_schema_no_tables `{E : Engine} (L : EngineLaws E) conn w db :
  decode (db_file conn w) = Some db →
  Forall (λ e, is_table e = false) db →
  get_schema conn w = (Ok [], touch conn w).
Proof.
  intros Hd Hno. pose proof (get_schema_expected L conn db w Hd) as Hexp.
  by rewrite filter_tables_nil in Hexp.
Qed.

Lemma get_schema_no_tables_witness :
  @get_schema Ref.engine Ref.conn (Ref.holding Ref.ones_file)
  = (Ok [], touch Ref.conn (Ref.holding Ref.ones_file)).
Proof.
  apply (get_schema_no_tables RefLaws.engine_laws Ref.conn
           (Ref.holding Ref.ones_file) Ref.ones_db).
  - vm_compute. reflexivity.
  - repeat constructor.
Defined.

(** C4: in the schema that [get_schema] returns, the entry of a table holds
    what [PRAGMA table_info] reports on the name that the table's name,
    pasted unquoted, is read as, not on the table itself: when that name
    denotes a relation [t'], the [primary_keys] of the entry are the key
    columns of [t'], and its columns those of [t'].  So a keyless table
    with the name of another table between brackets gets that table's
    key. *)
Theorem get_schema_primary_keys_of_pasted_name `{E : Engine} (L : EngineLaws E)
    conn w db schema w' t n :
  decode (db_file conn w) = Some db →
  get_schema conn w = (Ok schema, w') →
  t ∈ db → is_table t = true → read_name (e_name t) = Some n →
  ∃ info, dict_get (VStr (e_name t)) schema = Some info
    ∧ primary_keys info = key_columns (reported_columns db n)
    ∧ columns info = columns_of (reported_columns db n)
    ∧ ∀ t', find_relation n db = Some t' →
        primary_keys info = key_columns (e_columns t')
        ∧ columns info = columns_of (e_columns t').
Proof.
  intros Hd Hg Hin Ht Hn. destruct (get_schema_Ok L conn db w schema w' Hd Hg) as [Hs _].
  assert (t ∈ List.filter is_table db) as Hin'.
  { apply list_elem_of_In, filter_In. split; [by apply list_elem_of_In | done]. }
  assert (is_Some (dict_get (VStr (e_name t)) schema)) as [info Hinfo].
  { apply dict_get_is_Some, (schema_from_keys db _ [] schema Hs). right. by exists t. }
  exists info. split; [done |].
  destruct (schema_from_lookup db _ [] schema _ info Hs Hinfo)
    as [Hnil|(t' & n' & _ & [= Hname] & Hn' & ->)]; [done |].
  rewrite <- Hname, Hn in Hn'. injection Hn' as <-.
  split_and!; [done | done |].
  intros r Hr. unfold entry_of, reported_columns. by rewrite Hr.
Qed.

Lemma get_schema_primary_keys_of_pasted_name_witness :
  let t := Ref.table "[users]" [Ref.text_column "other"] [] in
  key_columns (e_columns t) = []
  ∧ ∃ info,
      dict_get (VStr (e_name t))
        [ (VStr "users", Ref.users_entry); (VStr "[users]", Ref.users_entry) ] = Some info
      ∧ primary_keys info = key_columns (reported_columns Ref.brackets_db "users")
      ∧ columns info = columns_of (reported_columns Ref.brackets_db "users")
      ∧ ∀ t'', find_relation "users" Ref.brackets_db = Some t'' →
          primary_keys info = key_columns (e_columns t'')
          ∧ columns info = columns_of (e_columns t'').
Proof.
  cbn zeta. split; [reflexivity |].
  apply (get_schema_primary_keys_of_pasted_name RefLaws.engine_laws Ref.conn
           (Ref.holding Ref.brackets_file) Ref.brackets_db
           [ (VStr "users", Ref.users_entry); (VStr "[users]", Ref.users_entry) ]
           (touch Ref.conn (Ref.holding Ref.brackets_file))
           (Ref.table "[users]" [Ref.text_column "other"] []) "users").
  - vm_compute. reflexivity.
  - vm_compute. reflexivity.
  - right. by left.
  - reflexivity.
  - vm_compute. reflexivity.
Defined.

(** The same run, evaluated: the table [[users]] has no key column, and
    its entry lists [id]. *)
Example get_schema_brackets :
  key_columns [Ref.text_column "other"] = []
  ∧ fst (@get_schema Ref.engine Ref.conn (Ref.holding Ref.brackets_file))
    = Ok [ (VStr "users", Ref.users_entry);
           (VStr "[users]",
            {| columns := [(VStr "id", {| type := VStr "INTEGER" |});
                           (VStr "name", {| type := VStr "TEXT" |})];
               primary_keys := [VStr "id"] |}) ].
Proof. split; vm_compute; reflexivity. Qed.

(** ** [get_schema] only reads *)

Lemma schema_entry_same_db `{E : Engine} conn table acc w :
  reads_only E → same_db conn w (snd (schema_entry conn table acc w)).
Proof.
  intros Hro. unfold schema_entry, mbind, M_bind, lift.
  destruct (index table 0) as [v|e]; [| apply same_db_refl].
  assert (snd (execute conn (pragma_query (py_str v)) w) = touch conn w) as Hw.
  { apply execute_read_statement; [done |]. right. by eexists. }
  destruct (execute conn (pragma_query (py_str v)) w) as [[cols|e] w1];
    cbn [snd] in Hw; rewrite Hw; [| apply same_db_touch].
  destruct (columns_dict cols []) as [cs|e]; [| apply same_db_touch].
  destruct (primary_keys_list cols) as [pks|e]; apply same_db_touch.
Qed.

Lemma for_each_same_db `{E : Engine} conn tables acc w :
  reads_only E → same_db conn w (snd (for_each tables (schema_entry conn) acc w)).
Proof.
  intros Hro. revert acc w. induction tables as [|t tables IH]; intros acc w.
  - apply same_db_refl.
  - cbn [for_each]. unfold mbind, M_bind.
    pose proof (schema_entry_same_db conn t acc w Hro) as Hstep.
    destruct (schema_entry conn t acc w) as [[acc'|e] w1]; cbn [snd] in *; [| done].
    eapply same_db_trans; [exact Hstep | apply IH].
Qed.

(** C9: [get_schema] issues the catalog [SELECT] and [PRAGMA table_info]
    statements only; with an engine that leaves the file alone on these,
    the database after the call, whether it returned or raised, is the one
    before it, and so are the other files and the page. *)
Theorem get_schema_reads_only `{E : Engine} conn w :
  reads_only E → same_db conn w (snd (get_schema conn w)).
Proof.
  intros Hro. unfold get_schema, mbind, M_bind.
  assert (snd (execute conn catalog_query w) = touch conn w) as Hw.
  { apply execute_read_statement; [done | by left]. }
  destruct (execute conn catalog_query w) as [[tables|e] w1];
    cbn [snd] in Hw; rewrite Hw; [| apply same_db_touch].
  eapply same_db_trans; [apply same_db_touch | by apply for_each_same_db].
Qed.

Lemma get_schema_reads_only_witness :
  same_db Ref.conn (Ref.holding Ref.users_file)
    (snd (@get_schema Ref.engine Ref.conn (Ref.holding Ref.users_file))).
Proof.
  apply (@get_schema_reads_only Ref.engine Ref.conn (Ref.holding Ref.users_file)).
  apply laws_reads_only, RefLaws.engine_laws.
Defined.

(** ** Loading a file *)

Lemma get_schema_not_a_database `{E : Engine} (L : EngineLaws E) conn w :
  decode (db_file conn w) = None → ∃ e, get_schema conn w = (Raise e, touch conn w).
Proof.
  intros Hd. destruct (exec_not_a_database _ catalog_query Hd) as [e He]; [by left |].
  exists e. unfold get_schema, mbind, M_bind.
  by rewrite (execute_kept conn _ w (Raise e)).
Qed.

(** C5: with a file that is present and is not a database, [load_database]
    does not fail: it writes the bytes and returns a connection.  [main]
    then calls [get_schema], whose first statement raises; nothing catches
    the exception, and the page shows the three opening widgets and no
    error message. *)
Theorem main_invalid_file_raises `{E : Engine} (L : EngineLaws E) ui buffer w :
  uploaded ui = Some buffer → decode buffer = None →
  (∃ w1, load_database (Some buffer) w = (Ok (Some (sqlite3_connect temp_path)), w1))
  ∧ ∃ e w', main ui w = (Raise e, w')
      ∧ screen w' = screen w ++
          [ StTitle "💬 Natural Language to SQL Converter";
            StMarkdown "Upload your SQLite database and type your query in natural language.";
            StFileUploader "Upload SQLite Database" ["db"; "sqlite"; "sqlite3"] ]
      ∧ StError load_error ∉ drop (length (screen w)) (screen w').
Proof.
  intros Hup Hd. split; [by eexists |].
  unfold main. rewrite Hup.
  unfold load_database, write_file, st, mbind, M_bind, mret, M_ret. cbn [files screen].
  match goal with |- context [get_schema ?c ?w0] =>
    destruct (get_schema_not_a_database L c w0) as [e He] end.
  { unfold db_file, sqlite3_connect. cbn [files db_path]. by rewrite lookup_insert_eq. }
  rewrite He. exists e. eexists. split; [reflexivity |].
  cbn [touch screen]. rewrite <- !(assoc_L (++)). cbn [app]. split; [done |].
  rewrite drop_app_length.
  repeat (apply not_elem_of_cons; split; [done |]). apply not_elem_of_nil.
Qed.

Lemma main_invalid_file_raises_witness :
  ∃ e w', @main Ref.engine
            {| uploaded := Some Ref.garbage_file; typed := ""; pressed := false |}
            Ref.start = (Raise e, w')
          ∧ StError load_error ∉ screen w'.
Proof.
  destruct (@main_invalid_file_raises Ref.engine RefLaws.engine_laws
              {| uploaded := Some Ref.garbage_file; typed := ""; pressed := false |}
              Ref.garbage_file Ref.start) as [_ (e & w' & Hm & _ & Hno)].
  - reflexivity.
  - vm_compute. reflexivity.
  - exists e, w'. split; [exact Hm | exact Hno].
Defined.

(** The same run, evaluated. *)
Example main_garbage_file :
  fst (@main Ref.engine
         {| uploaded := Some Ref.garbage_file; typed := "show users"; pressed := true |}
         Ref.start)
  = Raise (Exn "DatabaseError" "file is not a database").
Proof. vm_compute. reflexivity. Qed.

(** ** What the schema depends on *)

Lemma depends_ret {A} conn (a : A) : depends_on_db conn (mret a).
Proof. by intros w1 w2 Hw. Qed.

Lemma depends_lift {A} conn (o : outcome A) : depends_on_db conn (lift o).
Proof. by intros w1 w2 Hw. Qed.

Lemma depends_bind {A B} conn (m : M A) (f : A → M B) :
  depends_on_db conn m → (∀ a, depends_on_db conn (f a)) →
  depends_on_db conn (m ≫= f).
Proof.
  intros Hm Hf w1 w2 Hw. unfold mbind, M_bind.
  destruct (Hm w1 w2 Hw) as [Hr Hs].
  destruct (m w1) as [[a|e] w1'], (m w2) as [[a'|e'] w2']; cbn [fst snd] in *;
    try discriminate.
  - injection Hr as <-. by apply Hf.
  - injection Hr as <-. by split.
Qed.

Lemma depends_execute `{Engine} conn sql : depends_on_db conn (execute conn sql).
Proof.
  intros w1 w2 Hw. unfold execute. rewrite Hw.
  destruct (sql_exec sql (db_file conn w2)) as [r f']. cbn [fst snd]. split; [done |].
  unfold db_file. cbn [files]. by rewrite !lookup_insert_eq.
Qed.

Lemma depends_for_each {A S} conn (xs : list A) (body : A → S → M S) acc :
  (∀ x s, depends_on_db conn (body x s)) → depends_on_db conn (for_each xs body acc).
Proof.
  intros Hb. revert acc. induction xs as [|x xs IH]; intros acc.
  - apply depends_ret.
  - cbn [for_each]. apply depends_bind; [apply Hb | apply IH].
Qed.

Lemma depends_get_schema `{Engine} conn : depends_on_db conn (get_schema conn).
Proof.
  unfold get_schema. apply depends_bind; [apply depends_execute |].
  intros tables. apply depends_for_each. intros table schema. unfold schema_entry.
  apply depends_bind; [apply depends_lift |]. intros name.
  apply depends_bind; [apply depends_execute |]. intros cols.
  apply depends_bind; [apply depends_lift |]. intros cs.
  apply depends_bind; [apply depends_lift |]. intros pks.
  apply depends_ret.
Qed.

Lemma schema_after_upload_eq `{Engine} buffer w :
  schema_after_upload buffer w
  = get_schema (sqlite3_connect temp_path)
      {| files := <[temp_path := buffer]> (files w); screen := screen w |}.
Proof. reflexivity. Qed.

Lemma schema_from_parsed `{Engine} db tables acc :
  (∀ t, t ∈ tables →
        text_ok (e_name t) = true
        ∧ ∃ n, read_name (e_name t) = Some n ∧ describable db n = true) →
  is_Some (schema_from db tables acc).
Proof.
  revert acc. induction tables as [|t tables IH]; intros acc Hread; [by eexists |].
  cbn [schema_from]. destruct (Hread t) as (-> & n & -> & ->); [by left |].
  apply IH. intros t' Ht'. apply Hread. by right.
Qed.

Lemma elem_of_filter_tables (db : database) t :
  t ∈ List.filter is_table db ↔ t ∈ db ∧ is_table t = true.
Proof. rewrite !list_elem_of_In. apply filter_In. Qed.




(** Two uploads on the reference engine: the schema is that of the second file. *)
Example second_upload_supersedes :
  fst (@schema_after_upload Ref.engine Ref.users_file
         (snd (@main Ref.engine
                 {| uploaded := Some Ref.stock_file; typed := ""; pressed := false |}
                 Ref.start)))
  = Ok Ref.users_schema.
Proof. vm_compute. reflexivity. Qed.

(** ** Executing the generated query *)

Lemma sql_name_eqb_refl (n : string) : sql_name_eqb n n = true.
Proof.
  induction n as [|c n IH]; [done |].
  cbn [sql_name_eqb]. by rewrite Ascii.eqb_refl, IH.
Qed.

Lemma find_relation_self db t :
  names_distinct db → t ∈ db → is_relation t = true →
  find_relation (e_name t) db = Some t.
Proof.
  intros Hnd Hin%list_elem_of_In Hrel. unfold find_relation.
  destruct (find _ db) as [t'|] eqn:Hfind.
  - apply find_some in Hfind as [Hin' [Hrel' Hname]%andb_prop].
    apply In_nth_error in Hin as [i Hi]. apply In_nth_error in Hin' as [j Hj].
    assert (i = j) as -> by (by eapply Hnd). congruence.
  - apply (find_none _ _ Hfind) in Hin. by rewrite Hrel, sql_name_eqb_refl in Hin.
Qed.

Lemma has_nul_app (a b : string) : has_nul (a +:+ b) = has_nul a || has_nul b.
Proof.
  unfold has_nul. rewrite RefLaws.string_forallb_app. apply negb_andb.
Qed.

Lemma no_line_feed_single_line (s : string) :
  no_line_feed s = true → has_nul s = false → single_line s = true.
Proof.
  unfold has_nul. intros Hlf Hnul%negb_false_iff.
  induction s as [|a s IH]; [done |].
  cbn [single_line no_line_feed string_forallb] in *.
  apply andb_prop in Hlf as [-> Hlf]. apply andb_prop in Hnul as [-> Hnul].
  by apply IH.
Qed.

(** The generated query as a line comment in front of the stub statement. *)
Lemma generated_query_shape self user_input schema :
  query (generate_query self user_input schema)
  = "--" +:+ (" Generated from: " +:+ user_input) +:+ nl +:+ stub_statement.
Proof. reflexivity. Qed.

Lemma generated_query_frame `{E : Engine} (L : EngineLaws E) self user_input schema f db :
  decode f = Some db → single_line user_input = true →
  same_frame (read_frame (query (generate_query self user_input schema)) f)
    (read_frame stub_statement f).
Proof.
  intros Hd Hu. rewrite generated_query_shape. by apply (frame_line_comment f db).
Qed.

Lemma generated_query_has_nul self user_input schema :
  has_nul user_input = true →
  has_nul (query (generate_query self user_input schema)) = true.
Proof.
  intros Hu. cbn [query generate_query]. rewrite !has_nul_app, Hu.
  by rewrite orb_true_r.
Qed.

Lemma read_sql_query_frame `{E : Engine} sql conn w :
  fst (read_sql_query sql conn w) = fst (read_frame sql (db_file conn w))
  ∧ db_file conn (snd (read_sql_query sql conn w)) = snd (read_frame sql (db_file conn w))
  ∧ screen (snd (read_sql_query sql conn w)) = screen w.
Proof.
  unfold read_sql_query. destruct (read_frame sql (db_file conn w)) as [r f'].
  cbn [fst snd screen]. split; [done |]. split; [| done].
  unfold db_file. cbn [files]. by rewrite lookup_insert_eq.
Qed.

Lemma execute_query_cases `{E : Engine} result conn w :
  ∃ w', execute_query result conn w = (Ok tt, w')
    ∧ screen w'
      = screen w ++ result_events (fst (read_frame (query result) (db_file conn w))).
Proof.
  unfold execute_query, try_except, read_sql_query, mbind, M_bind, st, mret, M_ret.
  destruct (read_frame (query result) (db_file conn w)) as [[df|e] f'];
    cbn [fst files screen result_events]; eexists; (split; [reflexivity |]); cbn [screen].
  - by rewrite <- (assoc_L (++)).
  - done.
Qed.

(** C7, as stated, fails in its last part, in three ways.  On a database
    without a table [table_name] but with a view of that name, the stub
    query runs and shows the rows of the view; so it does on a database
    whose only table is named [TABLE_NAME]; and with the two-line text
    below the generated query is the catalog [SELECT] (the stub statement
    is swallowed by the block comment that the text opens), which runs on
    any database. *)
Lemma stub_query_runs_without_table :
  let no_table db := ∀ t, t ∈ db → is_table t = true → e_name t ≠ "table_name" in
  let shown (text : string) (f : bytes) :=
    screen (snd (@execute_query Ref.engine (generate_query SimpleNLP2SQL_init text [])
                   Ref.conn (Ref.holding f))) in
  (Ref.ref_decode Ref.view_file = Some Ref.view_db ∧ no_table Ref.view_db
   ∧ shown "show all items" Ref.view_file
     = [StSubheader "Query Results";
        StDataframe {| df_columns := ["label"];
                       df_rows := [[Ref.text "item"]; [Ref.text "item"]] |}])
  ∧ (Ref.ref_decode Ref.capitals_file = Some Ref.capitals_db ∧ no_table Ref.capitals_db
     ∧ shown "show all items" Ref.capitals_file
       = [StSubheader "Query Results";
          StDataframe {| df_columns := ["id"]; df_rows := [[CInt 1]] |}])
  ∧ (Ref.ref_decode Ref.users_file = Some Ref.users_db ∧ no_table Ref.users_db
     ∧ shown ("x" +:+ nl +:+ "SELECT name FROM sqlite_master WHERE type='table'; /*")
         Ref.users_file
       = [StSubheader "Query Results";
          StDataframe {| df_columns := ["name"];
                         df_rows := [[Ref.text "users"]; [Ref.text "logs"]] |}]).
Proof.
  cbn zeta.
  assert (∀ db : database,
            forallb (λ t, negb (is_table t && String.eqb (e_name t) "table_name")) db = true →
            ∀ t, t ∈ db → is_table t = true → e_name t ≠ "table_name") as Hno.
  { intros db Hall t Hin Ht Hname. rewrite forallb_forall in Hall.
    apply list_elem_of_In, Hall in Hin. by rewrite Ht, Hname in Hin. }
  split_and!; try (by vm_compute); by apply Hno.
Qed.

(** C7, amended: whatever the query and the connection, the execution path
    returns normally, showing the result when pandas returned a frame and
    one error message carrying the text of the exception when it raised;
    for a user text without line feed, the generated query on a database
    in which [table_name] denotes no relation (neither a table nor a view,
    in any letter case) raises and is shown that way. *)
Theorem execute_query_never_raises `{E : Engine} result conn w :
  (∃ w', execute_query result conn w = (Ok tt, w')
     ∧ match fst (read_sql_query (query result) conn w) with
       | Ok df =>
           screen w' = screen w ++ [StSubheader "Query Results"; StDataframe df]
       | Raise e =>
           screen w' = screen w ++ [StError ("Error executing query: " +:+ exn_msg e)]
       end)
  ∧ (EngineLaws E →
     ∀ self user_input schema db,
       decode (db_file conn w) = Some db →
       find_relation "table_name" db = None →
       no_line_feed user_input = true →
       ∃ e w',
         fst (read_sql_query (query (generate_query self user_input schema)) conn w)
           = Raise e
         ∧ execute_query (generate_query self user_input schema) conn w = (Ok tt, w')
         ∧ screen w' = screen w ++ [StError ("Error executing query: " +:+ exn_msg e)]).
Proof.
  assert (∀ result0,
            ∃ w', execute_query result0 conn w = (Ok tt, w')
              ∧ match fst (read_sql_query (query result0) conn w) with
                | Ok df =>
                    screen w' = screen w ++ [StSubheader "Query Results"; StDataframe df]
                | Raise e =>
                    screen w'
                    = screen w ++ [StError ("Error executing query: " +:+ exn_msg e)]
                end) as Hcases.
  { intros result0. destruct (execute_query_cases result0 conn w) as (w' & Hrun & Hscreen).
    exists w'. split; [done |].
    destruct (read_sql_query_frame (query result0) conn w) as [-> _].
    by destruct (fst (read_frame (query result0) (db_file conn w))). }
  split; [apply Hcases |].
  intros L self user_input schema db Hd Hno Hu.
  assert (∃ e, fst (read_frame (query (generate_query self user_input schema))
                      (db_file conn w)) = Raise e) as [e He].
  { destruct (has_nul user_input) eqn:Hnul.
    - destruct (frame_nul (db_file conn w) _
                  (generated_query_has_nul self user_input schema Hnul)) as [e ->].
      by exists e.
    - pose proof (generated_query_frame L self user_input schema _ db Hd
                    (no_line_feed_single_line _ Hu Hnul)) as [_ Hsame].
      destruct (frame_stub_no_table _ db Hd Hno) as [x Hx]. rewrite Hx in Hsame.
      destruct (fst (read_frame _ (db_file conn w))) as [df|e]; [done | by exists e]. }
  destruct (Hcases (generate_query self user_input schema)) as (w' & Hrun & Hscreen).
  destruct (read_sql_query_frame (query (generate_query self user_input schema)) conn w)
    as [Hfst _].
  rewrite Hfst, He in Hscreen. exists e, w'. by rewrite Hfst, He.
Qed.

Lemma execute_query_never_raises_witness :
  ∃ e w',
    fst (@read_sql_query Ref.engine
           (query (generate_query SimpleNLP2SQL_init "show all users" []))
           Ref.conn (Ref.holding Ref.users_file)) = Raise e
    ∧ @execute_query Ref.engine (generate_query SimpleNLP2SQL_init "show all users" [])
        Ref.conn (Ref.holding Ref.users_file) = (Ok tt, w')
    ∧ screen w' = screen (Ref.holding Ref.users_file)
                  ++ [StError ("Error executing query: " +:+ exn_msg e)].
Proof.
  apply (proj2 (@execute_query_never_raises Ref.engine
                  (generate_query SimpleNLP2SQL_init "show all users" [])
                  Ref.conn (Ref.holding Ref.users_file))
           RefLaws.engine_laws SimpleNLP2SQL_init "show all users" [] Ref.users_db).
  - vm_compute. reflexivity.
  - vm_compute. reflexivity.
  - vm_compute. reflexivity.
Defined.

(** The message of that run, evaluated: the text of the exception is the
    one pandas words, which holds the query. *)
Example execute_query_message :
  screen (snd (@execute_query Ref.engine
                 (generate_query SimpleNLP2SQL_init "show all users" [])
                 Ref.conn (Ref.holding Ref.users_file)))
  = [StError ("Error executing query: Execution failed on sql '-- Generated from: show all users"
              +:+ nl +:+ "SELECT * FROM table_name LIMIT 5;': no such table: table_name")].
Proof. vm_compute. reflexivity. Qed.

(** C8, as stated, fails.  On a database whose table [table_name] holds a
    TEXT that is not UTF-8, executing the query generated from a plain
    text raises; so it does on one whose table [table_name] has a column
    name that is not UTF-8, and on one whose table [table_name] is a
    virtual table without its module.  On a database whose table
    [table_name] has seven good rows, it raises for a text that holds a
    NUL character, and for the two-line text [x<LF>not sql], whose second
    line is no SQL. *)
Lemma stub_query_fails_with_table :
  let has_table db :=
    ∃ t, t ∈ db ∧ is_table t = true ∧ e_name t = "table_name" ∧ e_rows t ≠ [] in
  let raises (text : string) (f : bytes) :=
    ∃ e, fst (@read_sql_query Ref.engine
                (query (generate_query SimpleNLP2SQL_init text [])) Ref.conn
                (Ref.holding f)) = Raise e in
  (Ref.ref_decode Ref.latin_file = Some Ref.latin_db ∧ has_table Ref.latin_db
   ∧ raises "show all items" Ref.latin_file)
  ∧ (Ref.ref_decode Ref.label_file = Some Ref.label_db ∧ has_table Ref.label_db
     ∧ raises "show all items" Ref.label_file)
  ∧ (Ref.ref_decode Ref.module_file = Some Ref.module_db ∧ has_table Ref.module_db
     ∧ raises "show all items" Ref.module_file)
  ∧ (Ref.ref_decode Ref.stock_file = Some Ref.stock_db ∧ has_table Ref.stock_db
     ∧ raises (String zero "show all items") Ref.stock_file
     ∧ raises ("x" +:+ nl +:+ "not sql") Ref.stock_file).
Proof.
  cbn zeta.
  assert (∀ db t, hd_error db = Some t → is_table t = true →
                  e_name t = "table_name" → e_rows t ≠ [] →
                  ∃ t, t ∈ db ∧ is_table t = true ∧ e_name t = "table_name"
                       ∧ e_rows t ≠ []) as Hhas.
  { intros [|t0 db] t [= ->] ? ? ?. exists t. split; [by left | done]. }
  split_and!;
    try (by eapply Hhas; [reflexivity | reflexivity | reflexivity | discriminate]);
    try (by vm_compute); eexists; vm_compute; reflexivity.
Qed.

(** C8, amended: for a user text that is a single line without NUL
    character, and a database that holds a table named exactly
    [table_name] with at least one row, the first five rows of which can
    be fetched ([SELECT *] runs on the table, its column names and the
    TEXT cells of these rows are UTF-8), executing the generated query
    succeeds and returns the first rows of that table, at least one and at
    most five. *)
Theorem stub_query_returns_rows `{E : Engine} (L : EngineLaws E)
    self user_input schema conn w db t :
  decode (db_file conn w) = Some db → names_distinct db →
  t ∈ db → is_table t = true → e_name t = "table_name" → e_rows t ≠ [] →
  fetchable t = true →
  single_line user_input = true →
  ∃ df,
    fst (read_sql_query (query (generate_query self user_input schema)) conn w) = Ok df
    ∧ df_rows df = firstn 5 (e_rows t)
    ∧ (1 ≤ length (df_rows df) ≤ 5)%nat
    ∧ ∀ r, r ∈ df_rows df → r ∈ e_rows t.
Proof.
  intros Hd Hnd Hin Ht Hname Hrows Hfetch Hu.
  assert (find_relation "table_name" db = Some t) as Hfind.
  { rewrite <- Hname. apply find_relation_self; [done | done |].
    unfold is_relation. by rewrite Ht. }
  exists {| df_columns := e_labels t; df_rows := firstn 5 (e_rows t) |}.
  cbn [df_rows]. split_and!.
  - destruct (read_sql_query_frame (query (generate_query self user_input schema)) conn w)
      as [-> _].
    pose proof (generated_query_frame L self user_input schema _ db Hd Hu) as [_ Hsame].
    rewrite (frame_stub _ db t Hd Hfind Hfetch) in Hsame. cbn [fst] in Hsame.
    destruct (fst (read_frame _ (db_file conn w))) as [df|e]; [by subst | done].
  - done.
  - rewrite length_firstn. destruct (e_rows t); [done | cbn [length]; lia].
  - rewrite length_firstn. lia.
  - intros r Hr. by apply (subseteq_take 5 (e_rows t)).
Qed.

Lemma stub_query_returns_rows_witness :
  ∃ df,
    fst (@read_sql_query Ref.engine
           (query (generate_query SimpleNLP2SQL_init "show all items" [])) Ref.conn
           (Ref.holding Ref.stock_file)) = Ok df
    ∧ df_rows df = firstn 5 Ref.item_rows
    ∧ (1 ≤ length (df_rows df) ≤ 5)%nat
    ∧ ∀ r, r ∈ df_rows df → r ∈ Ref.item_rows.
Proof.
  apply (stub_query_returns_rows RefLaws.engine_laws SimpleNLP2SQL_init
           "show all items" [] Ref.conn (Ref.holding Ref.stock_file) Ref.stock_db
           (Ref.table "table_name" [Ref.int_column "id" 1; Ref.text_column "label"]
              Ref.item_rows)).
  - vm_compute. reflexivity.
  - intros i j e1 e2 Hi Hj H1 H2 Hn.
    destruct i as [|[|[|i]]], j as [|[|[|j]]]; cbn in Hi, Hj; simplify_eq;
      try done; by destruct i || by destruct j.
  - by left.
  - reflexivity.
  - reflexivity.
  - discriminate.
  - vm_compute. reflexivity.
  - reflexivity.
Defined.

(** ** The schema of a database whose table names are read back as written *)

Lemma describable_self (db : database) t :
  names_distinct db → t ∈ db → is_table t = true → describable db (e_name t) = listable t.
Proof.
  intros Hnd Hin Ht. unfold describable.
  rewrite find_relation_self; [done | done | done |]. unfold is_relation. by rewrite Ht.
Qed.

Lemma columns_of_lookup (cs : list listed_column) (acc : dict value column_info) c :
  NoDup (map c_name cs) → c ∈ cs →
  dict_get (VStr (c_name c))
    (fold_left (λ acc c, dict_set (VStr (c_name c)) {| type := VStr (c_type c) |} acc) cs acc)
  = Some {| type := VStr (c_type c) |}.
Proof.
  revert acc. induction cs as [|c' cs IH]; intros acc Hnd Hc.
  - by apply elem_of_nil in Hc.
  - cbn [map] in Hnd. apply NoDup_cons in Hnd as [Hc' Hnd]. cbn [fold_left].
    apply elem_of_cons in Hc as [->|Hc]; [| by apply IH].
    clear IH. revert acc Hc'. generalize (VStr (c_type c')) as ty. intros ty.
    induction cs as [|d cs IH]; intros acc Hc'; cbn [fold_left].
    + apply dict_get_set_eq.
    + apply NoDup_cons in Hnd as [_ Hnd]. cbn [map] in Hc'.
      apply not_elem_of_cons in Hc' as [Hne Hc'].
      specialize (IH Hnd (dict_set (VStr (c_name d)) {| type := VStr (c_type d) |}
                            (dict_set (VStr (c_name c')) {| type := ty |} acc))).
      assert (∀ acc0, dict_get (VStr (c_name c')) acc0 = Some {| type := ty |} →
                dict_get (VStr (c_name c'))
                  (fold_left (λ acc c, dict_set (VStr (c_name c)) {| type := VStr (c_type c) |} acc)
                     cs acc0) = Some {| type := ty |}) as Hkeep.
      { clear -Hc'. induction cs as [|d' cs IH']; intros acc0 Hacc0; [done |].
        cbn [map] in Hc'. apply not_elem_of_cons in Hc' as [Hne' Hc'].
        cbn [fold_left]. apply IH'; [done |].
        rewrite dict_get_set_ne; [done | congruence]. }
      apply Hkeep. rewrite dict_get_set_ne by congruence. apply dict_get_set_eq.
Qed.

Lemma columns_of_keys (cs : list listed_column) (acc : dict value column_info) k :
  k ∈ dict_keys
        (fold_left (λ acc c, dict_set (VStr (c_name c)) {| type := VStr (c_type c) |} acc)
           cs acc)
  ↔ k ∈ dict_keys acc ∨ ∃ c, c ∈ cs ∧ k = VStr (c_name c).
Proof.
  revert acc. induction cs as [|c cs IH]; intros acc; cbn [fold_left].
  - split; [by left |]. intros [?|(c & Hc & _)]; [done | by apply elem_of_nil in Hc].
  - rewrite IH, dict_keys_set. split.
    + intros [Hk|(c' & Hc' & ->)].
      * case_decide; [by left |].
        apply elem_of_app in Hk as [Hk|Hk%list_elem_of_singleton]; [by left |].
        right. exists c. split; [by left | done].
      * right. exists c'. split; [by right | done].
    + intros [Hk|(c' & Hc' & ->)].
      * left. case_decide; [done | apply elem_of_app; by left].
      * apply elem_of_cons in Hc' as [->|Hc']; [| right; by exists c'].
        left. case_decide; [done |].
        apply elem_of_app; right. by apply list_elem_of_singleton.
Qed.

(** X1: for a database whose tables have columns that can be listed and
    names that are text and that the parser reads back as written,
    [get_schema] returns a mapping whose keys are the names of the entities
    of kind ['table'] and of them only, each with the columns that
    [PRAGMA table_info] lists for the table, the type text it reports for
    each, and the columns it reports as part of the key. *)
Lemma get_schema_read_names `{E : Engine} (L : EngineLaws E) conn w db :
  decode (db_file conn w) = Some db → names_distinct db →
  (∀ t, t ∈ db → is_table t = true →
        text_ok (e_name t) = true ∧ read_name (e_name t) = Some (e_name t)
        ∧ listable t = true) →
  ∃ schema,
    get_schema conn w = (Ok schema, touch conn w)
    ∧ (∀ k, k ∈ dict_keys schema ↔ ∃ t, t ∈ db ∧ is_table t = true ∧ k = VStr (e_name t))
    ∧ ∀ t, t ∈ db → is_table t = true →
        ∃ info, dict_get (VStr (e_name t)) schema = Some info
          ∧ primary_keys info = key_columns (e_columns t)
          ∧ (∀ k, k ∈ dict_keys (columns info)
                  ↔ ∃ c, c ∈ e_columns t ∧ k = VStr (c_name c))
          ∧ (NoDup (map c_name (e_columns t)) →
             ∀ c, c ∈ e_columns t →
               dict_get (VStr (c_name c)) (columns info)
               = Some {| type := VStr (c_type c) |}).
Proof.
  intros Hd Hnd Hread.
  pose proof (elem_of_filter_tables db) as Hfilter.
  pose proof (get_schema_expected L conn db w Hd) as Hexp.
  destruct (schema_from_parsed db (List.filter is_table db) []) as [schema Hs].
  { intros t [Ht1 Ht2]%Hfilter.
    destruct (Hread t Ht1 Ht2) as (Ht & Hn & Hu). split; [done |].
    exists (e_name t). split; [done |]. by rewrite describable_self. }
  rewrite Hs in Hexp. exists schema. split; [done |]. split.
  - intros k. rewrite (schema_from_keys db _ [] schema Hs k). split.
    + intros [Hk|(t & [Ht1 Ht2]%Hfilter & ->)]; [by apply elem_of_nil in Hk |].
      by exists t.
    + intros (t & Ht1 & Ht2 & ->). right. exists t. split; [by apply Hfilter | done].
  - intros t Ht1 Ht2.
    assert (is_Some (dict_get (VStr (e_name t)) schema)) as [info Hinfo].
    { apply dict_get_is_Some, (schema_from_keys db _ [] schema Hs). right.
      exists t. split; [by apply Hfilter | done]. }
    exists info. split; [done |].
    destruct (schema_from_lookup db _ [] schema _ info Hs Hinfo)
      as [Hnil|(t' & n & [Ht1' Ht2']%Hfilter & [= Hname] & Hn & ->)]; [done |].
    rewrite (proj1 (proj2 (Hread t' Ht1' Ht2'))) in Hn. injection Hn as <-.
    unfold entry_of, reported_columns. cbn [primary_keys columns].
    rewrite <- Hname, find_relation_self; [| done | done | unfold is_relation; by rewrite Ht2].
    split; [done |]. split; [| intros Hcols c Hc; by apply columns_of_lookup].
    intros k. unfold columns_of. rewrite columns_of_keys. split.
    + intros [Hk|Hk]; [by apply elem_of_nil in Hk | done].
    + intros Hk. by right.
Qed.

Lemma get_schema_read_names_users :
  fst (@get_schema Ref.engine Ref.conn (Ref.holding Ref.users_file)) = Ok Ref.users_schema.
Proof. vm_compute. reflexivity. Qed.

(** ** Frames of the computations of the script *)

Section Preserves.
Context (R : World → World → Prop).
Hypothesis R_refl : ∀ w, R w w.
Hypothesis R_trans : ∀ w1 w2 w3, R w1 w2 → R w2 w3 → R w1 w3.

Lemma preserves_ret {A} (a : A) : preserves R (mret a).
Proof. intros w. apply R_refl. Qed.

Lemma preserves_lift {A} (o : outcome A) : preserves R (lift o).
Proof. intros w. apply R_refl. Qed.

Lemma preserves_bind {A B} (m : M A) (f : A → M B) :
  preserves R m → (∀ a, preserves R (f a)) → preserves R (m ≫= f).
Proof.
  intros Hm Hf w. unfold mbind, M_bind. specialize (Hm w).
  destruct (m w) as [[a|e] w1]; cbn [snd] in *; [| done].
  eapply R_trans; [exact Hm | apply Hf].
Qed.

Lemma preserves_for_each {A S} (xs : list A) (body : A → S → M S) acc :
  (∀ x s, preserves R (body x s)) → preserves R (for_each xs body acc).
Proof.
  intros Hb. revert acc. induction xs as [|x xs IH]; intros acc.
  - apply preserves_ret.
  - cbn [for_each]. apply preserves_bind; [apply Hb | apply IH].
Qed.

Lemma preserves_get_schema `{Engine} conn :
  (∀ sql, read_statement sql → preserves R (execute conn sql)) →
  preserves R (get_schema conn).
Proof.
  intros Hex. unfold get_schema. apply preserves_bind; [apply Hex; by left |].
  intros tables. apply preserves_for_each. intros table schema. unfold schema_entry.
  apply preserves_bind; [apply preserves_lift |]. intros name.
  apply preserves_bind; [apply Hex; right; by eexists |]. intros cols.
  apply preserves_bind; [apply preserves_lift |]. intros cs.
  apply preserves_bind; [apply preserves_lift |]. intros pks.
  apply preserves_ret.
Qed.

End Preserves.

Lemma same_page_trans w1 w2 w3 : same_page w1 w2 → same_page w2 w3 → same_page w1 w3.
Proof. unfold same_page. congruence. Qed.

Lemma execute_same_page `{Engine} conn sql : preserves same_page (execute conn sql).
Proof.
  intros w. unfold execute, same_page.
  by destruct (sql_exec sql (db_file conn w)) as [r f'].
Qed.

Lemma execute_same_db `{E : Engine} conn sql :
  reads_only E → read_statement sql → preserves (same_db conn) (execute conn sql).
Proof.
  intros Hro Hsql w. rewrite execute_read_statement by done. apply same_db_touch.
Qed.

(** ** The runs of [main] *)

Lemma main_uploaded `{Engine} ui buffer w :
  uploaded ui = Some buffer →
  main ui w
  = (get_schema (sqlite3_connect temp_path)
       ≫= main_after_schema ui (sqlite3_connect temp_path)) (uploaded_world buffer w).
Proof.
  intros Hup. unfold main. rewrite Hup.
  transitivity
    ((get_schema (sqlite3_connect temp_path)
        ≫= main_after_schema ui (sqlite3_connect temp_path))
       {| files := <[temp_path := buffer]> (files w);
          screen := ((screen w ++ [StTitle "💬 Natural Language to SQL Converter"])
                     ++ [StMarkdown "Upload your SQLite database and type your query in natural language."])
                    ++ [StFileUploader "Upload SQLite Database" ["db"; "sqlite"; "sqlite3"]] |});
    [reflexivity |].
  f_equal. unfold uploaded_world. f_equal. by rewrite <- !(assoc_L (++)).
Qed.

Lemma main_not_uploaded `{Engine} ui w :
  uploaded ui = None →
  main ui w
  = (Ok tt, {| files := files w;
               screen := screen w ++ opening
                         ++ [StInfo "👆 Please upload a SQLite database file to begin."] |}).
Proof.
  intros Hup. unfold main. rewrite Hup.
  unfold mbind, M_bind, st. cbn [files screen]. do 2 f_equal.
  by rewrite <- !(assoc_L (++)).
Qed.

Lemma db_file_uploaded_world buffer w :
  db_file (sqlite3_connect temp_path) (uploaded_world buffer w) = buffer.
Proof.
  unfold db_file, uploaded_world. cbn [files db_path sqlite3_connect].
  by rewrite lookup_insert_eq.
Qed.

(** The schema extraction in [main] and [schema_after_upload] agree. *)
Lemma get_schema_uploaded_world `{Engine} buffer w :
  let r := get_schema (sqlite3_connect temp_path) (uploaded_world buffer w) in
  fst r = fst (schema_after_upload buffer w)
  ∧ db_file (sqlite3_connect temp_path) (snd r)
    = db_file (sqlite3_connect temp_path) (snd (schema_after_upload buffer w))
  ∧ screen (snd r) = screen w ++ opening.
Proof.
  cbn zeta. rewrite schema_after_upload_eq. split_and!.
  - apply depends_get_schema. rewrite db_file_uploaded_world.
    unfold db_file. cbn [files db_path sqlite3_connect]. by rewrite lookup_insert_eq.
  - apply depends_get_schema. rewrite db_file_uploaded_world.
    unfold db_file. cbn [files db_path sqlite3_connect]. by rewrite lookup_insert_eq.
  - apply (preserves_get_schema same_page); [done | apply same_page_trans |].
    intros sql _. apply execute_same_page.
Qed.

Lemma for_each_expanders (schema : Schema) w :
  for_each schema
    (λ '(table_name, table_info) (_ : unit),
       st (StExpander ("Table: " +:+ py_str table_name) table_info)) tt w
  = (Ok tt, {| files := files w; screen := screen w ++ expanders schema |}).
Proof.
  revert w. induction schema as [|[k info] schema IH]; intros w.
  - cbn. destruct w. by rewrite app_nil_r.
  - cbn [for_each expanders map]. unfold mbind, M_bind, st at 1.
    rewrite IH. cbn [files screen]. by rewrite <- (assoc_L (++)).
Qed.

Lemma main_after_schema_run `{Engine} ui conn schema w :
  let result := generate_query SimpleNLP2SQL_init (typed ui) schema in
  ∃ w', main_after_schema ui conn schema w = (Ok tt, w')
    ∧ screen w'
      = screen w ++ [StSubheader "Available Tables"] ++ expanders schema ++ [text_widget]
        ++ (if String.eqb (typed ui) "" then []
            else query_widgets result
                 ++ if pressed ui
                    then result_events (fst (read_frame (query result) (db_file conn w)))
                    else [])
    ∧ (String.eqb (typed ui) "" = true ∨ pressed ui = false → files w' = files w).
Proof.
  cbn zeta. unfold main_after_schema. unfold mbind at 1 2 3, M_bind, st at 1.
  rewrite for_each_expanders. cbn [files screen]. unfold st at 1. cbn [files screen].
  destruct (String.eqb (typed ui) "") eqn:Htyped; cbn [negb].
  - eexists. split; [reflexivity |]. cbn [screen files]. split; [| done].
    rewrite app_nil_r. by rewrite <- !(assoc_L (++)).
  - unfold mbind, M_bind, st. cbn [files screen].
    destruct (pressed ui) eqn:Hpressed.
    + match goal with |- context [execute_query ?r ?c ?w0] =>
        destruct (execute_query_cases r c w0) as (w' & Hrun & Hscreen) end.
      exists w'. split; [exact Hrun |]. split; [| by intros [?|?]].
      change (db_file conn _) with (db_file conn w) in Hscreen.
      destruct (fst (read_frame _ (db_file conn w))) as [rows|e];
        rewrite Hscreen; cbn [result_events query_widgets screen];
        rewrite <- !(assoc_L (++)); reflexivity.
    + eexists. split; [reflexivity |]. cbn [screen files]. split; [| done].
      rewrite app_nil_r. cbn [query_widgets]. rewrite <- !(assoc_L (++)). reflexivity.
Qed.

Lemma main_cases `{E : Engine} ui buffer w :
  uploaded ui = Some buffer →
  match fst (schema_after_upload buffer w) with
  | Raise e =>
      fst (main ui w) = Raise e ∧ screen (snd (main ui w)) = screen w ++ opening
  | Ok schema =>
      let result := generate_query SimpleNLP2SQL_init (typed ui) schema in
      let f := db_file (sqlite3_connect temp_path) (snd (schema_after_upload buffer w)) in
      ∃ w', main ui w = (Ok tt, w')
        ∧ screen w'
          = screen w ++ opening ++ [StSubheader "Available Tables"] ++ expanders schema
            ++ [text_widget]
            ++ (if String.eqb (typed ui) "" then []
                else query_widgets result
                     ++ if pressed ui
                        then result_events (fst (read_frame (query result) f))
                        else [])
  end.
Proof.
  intros Hup. rewrite (main_uploaded ui buffer w Hup).
  destruct (get_schema_uploaded_world buffer w) as (Hr & Hf & Hs). cbn zeta in *.
  rewrite <- Hr, <- Hf. unfold mbind, M_bind.
  destruct (get_schema (sqlite3_connect temp_path) (uploaded_world buffer w))
    as [[schema|e] w1]; cbn [fst snd] in *; [| done].
  destruct (main_after_schema_run ui (sqlite3_connect temp_path) schema w1)
    as (w' & Hrun & Hscreen & _).
  exists w'. split; [done |]. cbn zeta in Hscreen.
  rewrite Hscreen, Hs. by rewrite <- !(assoc_L (++)).
Qed.

Lemma StError_load_error_fresh ui schema (r : outcome DataFrame) :
  StError load_error
  ∉ opening ++ [StSubheader "Available Tables"] ++ expanders schema ++ [text_widget]
    ++ (if String.eqb (typed ui) "" then []
        else query_widgets (generate_query SimpleNLP2SQL_init (typed ui) schema)
             ++ if pressed ui then result_events r else []).
Proof.
  assert (StError load_error ∉ expanders schema) as Hexp.
  { unfold expanders. intros Hin%list_elem_of_In%in_map_iff.
    by destruct Hin as ([k info] & ? & _). }
  assert (StError load_error ∉ result_events r) as Hres.
  { destruct r as [rows|e]; cbn [result_events].
    - repeat (apply not_elem_of_cons; split; [done |]). apply not_elem_of_nil.
    - apply not_elem_of_cons; split; [| apply not_elem_of_nil].
      intros Heq. injection Heq as Heq. vm_compute in Heq. discriminate. }
  apply not_elem_of_app; split.
  { repeat (apply not_elem_of_cons; split; [done |]). apply not_elem_of_nil. }
  apply not_elem_of_cons; split; [done |].
  apply not_elem_of_app; split; [done |].
  apply not_elem_of_cons; split; [done |].
  destruct (String.eqb (typed ui) ""); [apply not_elem_of_nil |].
  apply not_elem_of_app; split.
  { repeat (apply not_elem_of_cons; split; [done |]). apply not_elem_of_nil. }
  destruct (pressed ui); [done | apply not_elem_of_nil].
Qed.

(** X3: the only exceptions that leave [main] are those of the schema
    extraction: [main] raises [e] exactly when a file was uploaded and
    extracting its schema raises [e]; the page then stops after the three
    opening widgets.  Failures of the query execution never leave [main]. *)
Theorem main_raises_iff `{E : Engine} ui w e :
  fst (main ui w) = Raise e
  ↔ ∃ buffer, uploaded ui = Some buffer
      ∧ fst (schema_after_upload buffer w) = Raise e
      ∧ screen (snd (main ui w)) = screen w ++ opening.
Proof.
  destruct (uploaded ui) as [buffer|] eqn:Hup.
  - pose proof (main_cases ui buffer w Hup) as Hcases.
    destruct (fst (schema_after_upload buffer w)) as [schema|e'] eqn:Hschema.
    + destruct Hcases as (w' & Hrun & _). rewrite Hrun. cbn [fst]. split; [done |].
      intros (b & [= <-] & Hraise & _). congruence.
    + destruct Hcases as [Hrun Hscreen]. rewrite Hrun. split.
      * intros [= ->]. exists buffer. by split_and!.
      * intros (b & [= <-] & Hraise & _). congruence.
  - rewrite (main_not_uploaded ui w Hup). cbn [fst]. split; [done |].
    by intros (b & ? & _).
Qed.

(** X4: whatever the inputs, the engine and the world, the message
    [Error loading database. ...] is not among what a run of [main] adds to
    the page: the branch that shows it cannot be taken. *)
Theorem main_never_shows_load_error `{E : Engine} ui w :
  ∃ evs, screen (snd (main ui w)) = screen w ++ evs ∧ StError load_error ∉ evs.
Proof.
  destruct (uploaded ui) as [buffer|] eqn:Hup.
  - pose proof (main_cases ui buffer w Hup) as Hcases.
    destruct (fst (schema_after_upload buffer w)) as [schema|e].
    + destruct Hcases as (w' & -> & Hscreen). cbn [snd].
      eexists. split; [exact Hscreen |]. apply StError_load_error_fresh.
    + destruct Hcases as [_ Hscreen]. eexists. split; [exact Hscreen |].
      repeat (apply not_elem_of_cons; split; [done |]). apply not_elem_of_nil.
  - rewrite (main_not_uploaded ui w Hup). cbn [snd screen].
    eexists. split; [reflexivity |].
    repeat (apply not_elem_of_cons; split; [done |]). apply not_elem_of_nil.
Qed.



(** X7: with an engine that only reads on the statements of [get_schema],
    a run of [main] in which the text is empty or the button is not pressed
    executes no query: afterwards the database file holds exactly the
    uploaded bytes. *)
Theorem main_without_execution_keeps_database `{E : Engine} ui buffer w :
  reads_only E → uploaded ui = Some buffer →
  typed ui = "" ∨ pressed ui = false →
  db_file (sqlite3_connect temp_path) (snd (main ui w)) = buffer.
Proof.
  intros Hro Hup Hidle. rewrite (main_uploaded ui buffer w Hup).
  rewrite <- (db_file_uploaded_world buffer w) at 2.
  pose proof (preserves_get_schema (same_db (sqlite3_connect temp_path))
                (same_db_refl _) (same_db_trans _) (sqlite3_connect temp_path)
                (λ sql Hsql, execute_same_db _ sql Hro Hsql)
                (uploaded_world buffer w)) as (Hdb & _ & _).
  unfold mbind, M_bind.
  destruct (get_schema (sqlite3_connect temp_path) (uploaded_world buffer w))
    as [[schema|e] w1]; cbn [snd] in *; [| done].
  destruct (main_after_schema_run ui (sqlite3_connect temp_path) schema w1)
    as (w' & -> & _ & Hfiles). cbn [snd]. rewrite <- Hdb.
  unfold db_file. rewrite Hfiles; [done |].
  destruct Hidle as [Htyped|Hpressed]; [left; by rewrite Htyped | by right].
Qed.

Lemma main_without_execution_keeps_database_witness :
  db_file (sqlite3_connect temp_path)
    (snd (@main Ref.engine
            {| uploaded := Some Ref.stock_file; typed := "show all items"; pressed := false |}
            Ref.start))
  = Ref.stock_file.
Proof.
  apply (@main_without_execution_keeps_database Ref.engine
           {| uploaded := Some Ref.stock_file; typed := "show all items"; pressed := false |}
           Ref.stock_file Ref.start).
  - apply laws_reads_only, RefLaws.engine_laws.
  - reflexivity.
  - by right.
Defined.

(** ** More on the schema extractor *)

Lemma get_schema_read_names_witness :
  ∃ schema,
    @get_schema Ref.engine Ref.conn (Ref.holding Ref.users_file)
    = (Ok schema, touch Ref.conn (Ref.holding Ref.users_file))
    ∧ (∀ k, k ∈ dict_keys schema
            ↔ ∃ t, t ∈ Ref.users_db ∧ is_table t = true ∧ k = VStr (e_name t))
    ∧ ∀ t, t ∈ Ref.users_db → is_table t = true →
        ∃ info, dict_get (VStr (e_name t)) schema = Some info
          ∧ primary_keys info = key_columns (e_columns t)
          ∧ (∀ k, k ∈ dict_keys (columns info)
                  ↔ ∃ c, c ∈ e_columns t ∧ k = VStr (c_name c))
          ∧ (NoDup (map c_name (e_columns t)) →
             ∀ c, c ∈ e_columns t →
               dict_get (VStr (c_name c)) (columns info)
               = Some {| type := VStr (c_type c) |}).
Proof.
  apply (get_schema_read_names RefLaws.engine_laws Ref.conn
           (Ref.holding Ref.users_file) Ref.users_db).
  - vm_compute. reflexivity.
  - intros i j e1 e2 Hi Hj H1 H2 Hn.
    destruct i as [|[|i]], j as [|[|j]]; cbn in Hi, Hj; simplify_eq;
      try done; by destruct i || by destruct j.
  - intros t Ht _. apply elem_of_cons in Ht as [->|Ht]; [split_and!; reflexivity |].
    apply elem_of_cons in Ht as [->|Ht]; [split_and!; reflexivity |].
    by apply elem_of_nil in Ht.
Defined.

(** X2: [get_schema] returns a schema exactly when the file is a well-formed
    database and the name of each of its tables is text and, pasted into
    [PRAGMA table_info(...)], is read as a name that denotes nothing or a
    relation whose columns can be listed; in every other case it raises,
    and no partial schema is returned. *)
Theorem get_schema_succeeds_iff `{E : Engine} (L : EngineLaws E) conn w :
  (∃ schema, fst (get_schema conn w) = Ok schema)
  ↔ ∃ db, decode (db_file conn w) = Some db
      ∧ ∀ t, t ∈ db → is_table t = true →
          text_ok (e_name t) = true
          ∧ ∃ n, read_name (e_name t) = Some n ∧ describable db n = true.
Proof.
  destruct (decode (db_file conn w)) as [db|] eqn:Hd.
  - pose proof (get_schema_expected L conn db w Hd) as Hexp.
    destruct (schema_from db (List.filter is_table db) []) as [s|] eqn:Hs.
    + rewrite Hexp. split; [| by eexists]. intros _. exists db. split; [done |].
      intros t Hin Ht.
      assert (t ∈ List.filter is_table db) as Hin' by (by apply elem_of_filter_tables).
      destruct (text_ok (e_name t)) eqn:Htext;
        [| by rewrite (schema_from_name_not_text db _ [] t) in Hs].
      split; [done |].
      destruct (read_name (e_name t)) as [n|] eqn:Hn.
      * exists n. split; [done |]. destruct (describable db n) eqn:Hu; [done |].
        by rewrite (schema_from_unlistable db _ [] t n) in Hs.
      * by rewrite (schema_from_unread db _ [] t) in Hs.
    + destruct Hexp as [e ->]. split; [by intros [schema ?] |].
      intros (db' & [= <-] & Hread).
      destruct (schema_from_parsed db (List.filter is_table db) []) as [s Hs'].
      * intros t [Hin Ht]%elem_of_filter_tables. by apply Hread.
      * congruence.
  - destruct (get_schema_not_a_database L conn w Hd) as [e ->].
    split; [by intros [schema ?] | by intros (db & ? & _)].
Qed.

Lemma get_schema_succeeds_iff_witness :
  (∃ schema, fst (@get_schema Ref.engine Ref.conn (Ref.holding Ref.users_file)) = Ok schema)
  ↔ ∃ db, Ref.ref_decode (db_file Ref.conn (Ref.holding Ref.users_file)) = Some db
      ∧ ∀ t, t ∈ db → is_table t = true →
          text_ok (e_name t) = true
          ∧ ∃ n, Ref.ref_read_name (e_name t) = Some n ∧ describable db n = true.
Proof.
  apply (get_schema_succeeds_iff RefLaws.engine_laws Ref.conn (Ref.holding Ref.users_file)).
Defined.

(** A table whose name is not text: the extraction raises. *)
Example get_schema_unreadable_name :
  ∃ msg, fst (@get_schema Ref.engine Ref.conn (Ref.holding Ref.accent_file))
         = Raise (Exn "OperationalError" msg).
Proof. eexists. vm_compute. reflexivity. Qed.

(** A table whose columns cannot be listed: the extraction raises, although
    every name parses. *)
Example get_schema_unlistable_table :
  (∀ t, t ∈ Ref.search_db → is_Some (Ref.ref_read_name (e_name t)))
  ∧ ∃ msg, fst (@get_schema Ref.engine Ref.conn (Ref.holding Ref.search_file))
           = Raise (Exn "OperationalError" msg).
Proof.
  split; [| eexists; vm_compute; reflexivity].
  intros t Ht. repeat (apply elem_of_cons in Ht as [->|Ht]; [by eexists |]).
  by apply elem_of_nil in Ht.
Qed.

(** ** More on the generated query *)

(** X8: for single-line texts, what was typed has no influence on whether
    the execution of the generated query succeeds, on the frame it returns,
    or on the world it leaves: on a well-formed database any two of them
    both fail or both return the same frame, and leave the same world.
    (The text of a failure is worded by pandas with the query in it, and
    so differs.) *)
Theorem generated_query_result_ignores_text `{E : Engine} (L : EngineLaws E)
    self1 self2 text1 text2 schema1 schema2 conn w db :
  decode (db_file conn w) = Some db →
  single_line text1 = true → single_line text2 = true →
  let r1 := read_sql_query (query (generate_query self1 text1 schema1)) conn w in
  let r2 := read_sql_query (query (generate_query self2 text2 schema2)) conn w in
  snd r1 = snd r2
  ∧ match fst r1, fst r2 with
    | Ok df1, Ok df2 => df1 = df2
    | Raise _, Raise _ => True
    | _, _ => False
    end.
Proof.
  intros Hd H1 H2. cbn zeta.
  pose proof (generated_query_frame L self1 text1 schema1 _ db Hd H1) as [Hf1 Hr1].
  pose proof (generated_query_frame L self2 text2 schema2 _ db Hd H2) as [Hf2 Hr2].
  unfold read_sql_query.
  destruct (read_frame (query (generate_query self1 text1 schema1)) (db_file conn w))
    as [r1 f1].
  destruct (read_frame (query (generate_query self2 text2 schema2)) (db_file conn w))
    as [r2 f2].
  destruct (read_frame stub_statement (db_file conn w)) as [r f].
  cbn [fst snd] in *. subst f1 f2. split; [done |].
  destruct r1, r2, r; done || congruence.
Qed.

Lemma generated_query_result_ignores_text_witness :
  let r1 := @read_sql_query Ref.engine
              (query (generate_query SimpleNLP2SQL_init "show all items" [])) Ref.conn
              (Ref.holding Ref.stock_file) in
  let r2 := @read_sql_query Ref.engine
              (query (generate_query SimpleNLP2SQL_init "delete everything" Ref.users_schema))
              Ref.conn (Ref.holding Ref.stock_file) in
  snd r1 = snd r2
  ∧ match fst r1, fst r2 with
    | Ok df1, Ok df2 => df1 = df2
    | Raise _, Raise _ => True
    | _, _ => False
    end.
Proof.
  apply (generated_query_result_ignores_text RefLaws.engine_laws
           SimpleNLP2SQL_init SimpleNLP2SQL_init "show all items" "delete everything"
           [] Ref.users_schema Ref.conn (Ref.holding Ref.stock_file) Ref.stock_db).
  - vm_compute. reflexivity.
  - reflexivity.
  - reflexivity.
Defined.

(** X9: for a text without line feed, the characters of the generated query
    that are not in a comment are exactly the statement
    [SELECT * FROM table_name LIMIT 5;]: nothing of the text is SQL code and
    the statement itself is not commented out. *)
Theorem generated_query_code_is_stub self user_input schema :
  no_line_feed user_input = true →
  let q := query (generate_query self user_input schema) in
  Ref.keep_code (comment_mask Code q) q = stub_statement.
Proof.
  intros Hu. cbn zeta.
  change (Ref.keep_code (comment_mask Code (query (generate_query self user_input schema)))
            (query (generate_query self user_input schema)))
    with (Ref.keep_code (comment_mask LineComment (user_input +:+ nl +:+ stub_statement))
            (user_input +:+ nl +:+ stub_statement)).
  rewrite line_comment_mask by done.
  rewrite RefLaws.keep_code_comment. vm_compute. reflexivity.
Qed.

Lemma generated_query_code_is_stub_witness :
  Ref.keep_code
    (comment_mask Code (query (generate_query SimpleNLP2SQL_init "drop -- /* it" [])))
    (query (generate_query SimpleNLP2SQL_init "drop -- /* it" []))
  = stub_statement.
Proof.
  apply (generated_query_code_is_stub SimpleNLP2SQL_init "drop -- /* it" []).
  reflexivity.
Defined.

(** X10: the text can be read back from the generated query, whatever the
    text: the echo loses nothing, so different texts give different
    queries. *)
Theorem echoed_text_generate_query self user_input schema :
  echoed_text (query (generate_query self user_input schema)) = user_input.
Proof.
  unfold echoed_text. cbn [query generate_query].
  rewrite !string_length_app.
  replace (String.length comment_prefix
           + (String.length user_input
              + (String.length nl + String.length stub_statement))
           - String.length comment_prefix - String.length nl
           - String.length stub_statement)%nat
    with (String.length user_input) by lia.
  by rewrite substring_skip, substring_prefix.
Qed.
